(** * tinytoys: the chat component of [src/App.tsx]

    A shallow embedding of the request lifecycle of the [App] component:
    the capped message history, the guard of [sendMessage], the
    [AbortController] held in [abortControllerRef], the 30 second timer
    and the ways the awaited [axios.post] comes back.

    - JavaScript strings are sequences of UTF-16 code units, [list Z];
      string literals of the source are written with [str].
    - The event loop runs one macrotask at a time ([step]).  State
      updates are applied in the order the handler issues them.  A
      handler called by an event is the one of the latest render, so it
      reads the current [input] and [isLoading] ([render]); [sendMessage]
      itself takes the captured values as a [Closure].
    - [sendMessage] is split at its [await]: [sendMessage] parks a
      [Request], [resume] is the rest of the function.  Aborting the
      controller of a parked request makes axios reject the call with a
      [CanceledError]; the continuation runs when the macrotask that
      aborted ends ([drain]).
    - [Date.now()] reads the model clock, in milliseconds; a timer fires
      no earlier than its due time.  The base-36 rendering of
      [Math.random()] is an input of the events that create a message. *)

From Stdlib Require Import String Ascii ZArith List Bool Lia.
Import ListNotations.

#[local] Open Scope Z_scope.

(* ================================================================= *)
(** ** Strings *)

Module JsString.

Definition t := list Z.

(** A literal of the source, as code units. *)
Definition str (s : string) : t :=
  map (fun a => Z.of_N (N_of_ascii a)) (list_ascii_of_string s).

(** ECMAScript [WhiteSpace] and [LineTerminator] code points, the
    characters [String.prototype.trim] strips. *)
Definition isWhiteSpace (c : Z) : bool :=
  (c =? 9) || (c =? 10) || (c =? 11) || (c =? 12) || (c =? 13)
  || (c =? 32) || (c =? 160) || (c =? 5760)
  || ((8192 <=? c) && (c <=? 8202))
  || (c =? 8232) || (c =? 8233) || (c =? 8239) || (c =? 8287)
  || (c =? 12288) || (c =? 65279).

Fixpoint trimStart (s : t) : t :=
  match s with
  | [] => []
  | c :: rest => if isWhiteSpace c then trimStart rest else s
  end.

Definition trimEnd (s : t) : t := rev (trimStart (rev s)).

(** [s.trim()] *)
Definition trim (s : t) : t := trimEnd (trimStart s).

(** [!s] on a string: only the empty string is falsy. *)
Definition not_ (s : t) : bool :=
  match s with
  | [] => true
  | _ :: _ => false
  end.

(** [s.substr(start)] for a non-negative [start]. *)
Definition substr (start : nat) (s : t) : t := skipn start s.

(** Empty or made of white space only. *)
Definition blank (s : t) : bool := forallb isWhiteSpace s.

(** One digit of [Number.prototype.toString(36)]. *)
Definition digit36 (d : Z) : Z :=
  if d <? 10 then 48 + d else 97 + (d - 10).

Fixpoint digits36 (fuel : nat) (n : Z) (acc : t) : t :=
  match fuel with
  | O => acc
  | S fuel' =>
      let acc' := digit36 (n mod 36) :: acc in
      if n / 36 =? 0 then acc' else digits36 fuel' (n / 36) acc'
  end.

(** [n.toString(36)] for an integer [n]. *)
Definition toString36 (n : Z) : t :=
  if n <? 0
  then 45 :: digits36 (S (Z.to_nat (Z.log2 (- n)))) (- n) []
  else digits36 (S (Z.to_nat (Z.log2 n))) n [].

End JsString.

Import JsString.

(* ================================================================= *)
(** ** Data model *)

Definition MAX_MESSAGES : Z := 5000.

Record Message := mkMessage {
  text : JsString.t;
  isUser : bool;
  id : JsString.t
}.

(** [a.slice(start)] on an array. *)
Definition slice {A : Type} (start : Z) (a : list A) : list A :=
  let len := Z.of_nat (length a) in
  let k := if start <? 0 then Z.max (len + start) 0 else Z.min start len in
  skipn (Z.to_nat k) a.

Definition setMessagesWithLimit (newMessages : list Message) : list Message :=
  if Z.of_nat (length newMessages) >? MAX_MESSAGES
  then slice (- MAX_MESSAGES) newMessages
  else newMessages.

(** [Date.now().toString(36) + Math.random().toString(36).substr(2)].
    The clock reading [now] and the rendering [random36] of the random
    draw in base 36 are read from the environment. *)
Definition createMessageId (now : Z) (random36 : JsString.t) : JsString.t :=
  toString36 now ++ substr 2 random36.

(* ================================================================= *)
(** ** What the awaited [axios.post] hands back *)

Record ChatMessage := mkChatMessage { content : JsString.t }.
Record Choice := mkChoice { message : ChatMessage }.
Record ResponseData := mkData { choices : list Choice }.
Record AxiosResponse := mkResponse { status : Z; data : ResponseData }.

(** The fields of a thrown value that the [catch] block looks at:
    [axios.isAxiosError(error)], [error.name], [error.response?.status]. *)
Record JsError := mkError {
  isAxiosError : bool;
  name : string;
  response_status : option Z
}.

(** What axios rejects with once the signal passed to it is aborted: an
    axios error named "CanceledError", the one line 112 tests for. *)
Definition canceledError : JsError := mkError true "CanceledError" None.

(** Thrown by [response.data.choices[0].message] when [choices] is empty. *)
Definition typeError : JsError := mkError false "TypeError" None.

(** The ways a call that was not aborted fails.  Axios resolves on a 2xx
    status and rejects on any other. *)
Inductive Failure :=
| BadStatus (code : Z)   (* a response came back and its status was rejected *)
| NoResponse             (* network error: no response at all *)
| NotAxios.              (* any other exception *)

Definition error_of (f : Failure) : JsError :=
  match f with
  | BadStatus code => mkError true "AxiosError" (Some code)
  | NoResponse => mkError true "AxiosError" None
  | NotAxios => mkError false "Error" None
  end.

Inductive Settled :=
| Fulfilled (response : AxiosResponse)
| Rejected (error : JsError).

(** [response.data.choices[0].message.content]; [None] when the read throws. *)
Definition content_of (response : AxiosResponse) : option JsString.t :=
  match choices (data response) with
  | [] => None
  | c :: _ => Some (content (message c))
  end.

(* ================================================================= *)
(** ** Component state and runtime *)

(** An activation of [sendMessage] suspended at its [await].  Activation
    [r_id] owns the [AbortController] and the timer of the same number. *)
Record Request := mkRequest {
  r_id : nat;
  r_userMessage : Message;
  r_aborted : bool           (* [signal.aborted] of its controller *)
}.

Record State := mkState {
  input : JsString.t;                 (* useState('') *)
  messages : list Message;            (* useState<Message[]>([]) *)
  isLoading : bool;                   (* useState(false) *)
  abortControllerRef : option nat;    (* useRef<AbortController | null>(null) *)
  mounted : bool;
  clock : Z;                          (* Date.now() *)
  requests : list Request;            (* suspended activations *)
  timers : list (nat * Z);            (* armed timers, with their due time *)
  next_id : nat
}.

Definition initialState (t0 : Z) : State :=
  mkState [] [] false None true t0 [] [] 0.

Definition setInput (v : JsString.t) (st : State) : State :=
  mkState v (messages st) (isLoading st) (abortControllerRef st) (mounted st)
          (clock st) (requests st) (timers st) (next_id st).

Definition setMessages (f : list Message -> list Message) (st : State) : State :=
  mkState (input st) (f (messages st)) (isLoading st) (abortControllerRef st)
          (mounted st) (clock st) (requests st) (timers st) (next_id st).

Definition setIsLoading (b : bool) (st : State) : State :=
  mkState (input st) (messages st) b (abortControllerRef st) (mounted st)
          (clock st) (requests st) (timers st) (next_id st).

Definition set_ref (c : option nat) (st : State) : State :=
  mkState (input st) (messages st) (isLoading st) c (mounted st)
          (clock st) (requests st) (timers st) (next_id st).

Definition set_mounted (b : bool) (st : State) : State :=
  mkState (input st) (messages st) (isLoading st) (abortControllerRef st) b
          (clock st) (requests st) (timers st) (next_id st).

Definition set_clock (t : Z) (st : State) : State :=
  mkState (input st) (messages st) (isLoading st) (abortControllerRef st)
          (mounted st) t (requests st) (timers st) (next_id st).

Definition set_requests (rs : list Request) (st : State) : State :=
  mkState (input st) (messages st) (isLoading st) (abortControllerRef st)
          (mounted st) (clock st) rs (timers st) (next_id st).

Definition set_timers (ts : list (nat * Z)) (st : State) : State :=
  mkState (input st) (messages st) (isLoading st) (abortControllerRef st)
          (mounted st) (clock st) (requests st) ts (next_id st).

(** [new AbortController()]: the next activation number is taken. *)
Definition newAbortController (st : State) : State :=
  mkState (input st) (messages st) (isLoading st) (abortControllerRef st)
          (mounted st) (clock st) (requests st) (timers st) (S (next_id st)).

(** [controller.abort()]: the signal of controller [c] is aborted, which
    rejects the call it was passed to. *)
Definition abort (c : nat) (st : State) : State :=
  set_requests
    (map (fun r => if Nat.eqb (r_id r) c
                   then mkRequest (r_id r) (r_userMessage r) true
                   else r)
         (requests st))
    st.

Definition setTimeout (n : nat) (delay : Z) (st : State) : State :=
  set_timers (timers st ++ [(n, clock st + delay)]) st.

Definition clearTimeout (n : nat) (st : State) : State :=
  set_timers (filter (fun t => negb (Nat.eqb (fst t) n)) (timers st)) st.

(** The [await]: the activation is parked until its call settles. *)
Definition await_post (r : Request) (st : State) : State :=
  set_requests (requests st ++ [r]) st.

(* ================================================================= *)
(** ** The handlers of [App] *)

(** The values [sendMessage] closes over (its [useCallback] dependencies
    that are state): those of the render that created it. *)
Record Closure := mkClosure {
  c_input : JsString.t;
  c_isLoading : bool
}.

Definition render (st : State) : Closure :=
  mkClosure (input st) (isLoading st).

Definition cancelPreviousRequest (st : State) : State :=
  match abortControllerRef st with
  | Some c => set_ref None (abort c st)
  | None => st
  end.

(** The callback handed to [setTimeout] (lines 81-85): it aborts whatever
    controller the ref holds when it runs. *)
Definition onTimeout (st : State) : State :=
  match abortControllerRef st with
  | Some c => abort c st
  | None => st
  end.

(** The cleanup of the mount effect (lines 29-35). *)
Definition cleanup (st : State) : State :=
  match abortControllerRef st with
  | Some c => abort c st
  | None => st
  end.

Definition rateLimitText : JsString.t :=
  str "Rate limit exceeded. Please try again later.".

Definition failureText : JsString.t :=
  str "Error: Failed to get response".

(** The [try] block of [sendMessage] up to its [await] (lines 80-100):
    a new controller goes into the ref, the timer is armed, the call is
    issued with the signal of that controller. *)
Definition post (userMessage : Message) (st : State) : State :=
  let n := next_id st in
  let st := set_ref (Some n) (newAbortController st) in
  let st := setTimeout n 30000 st in
  await_post (mkRequest n userMessage false) st.

(** [sendMessage] up to its [await] (lines 63-100). *)
Definition sendMessage (c : Closure) (random36 : JsString.t) (st : State) : State :=
  let trimmedInput := trim (c_input c) in
  if not_ trimmedInput || c_isLoading c then st else
  let st := cancelPreviousRequest st in
  let st := setIsLoading true st in
  let userMessage :=
    mkMessage trimmedInput true (createMessageId (clock st) random36) in
  let st :=
    setMessages (fun prevMessages =>
                   setMessagesWithLimit (prevMessages ++ [userMessage])) st in
  let st := setInput [] st in
  post userMessage st.

(** The text of the error message (lines 117-119). *)
Definition errorText (error : JsError) : JsString.t :=
  if isAxiosError error
     && match response_status error with
        | Some code => code =? 429
        | None => false
        end
  then rateLimitText
  else failureText.

(** The [catch] block (lines 111-127). *)
Definition catch_ (error : JsError) (random36 : JsString.t) (st : State) : State :=
  if isAxiosError error && (name error =? "CanceledError")%string
  then st
  else
    let errorMessage :=
      mkMessage (errorText error) false (createMessageId (clock st) random36) in
    setMessages (fun prevMessages =>
                   setMessagesWithLimit (prevMessages ++ [errorMessage])) st.

(** The [finally] block (lines 128-131). *)
Definition finally_ (st : State) : State :=
  set_ref None (setIsLoading false st).

(** [sendMessage] from its [await] on (lines 102-131), for activation [r]. *)
Definition resume (r : Request) (o : Settled) (random36 : JsString.t)
                  (st : State) : State :=
  finally_
    match o with
    | Fulfilled response =>
        let st := clearTimeout (r_id r) st in
        match content_of response with
        | Some reply =>
            let botMessage :=
              mkMessage reply false (createMessageId (clock st) random36) in
            setMessages (fun prevMessages =>
                           setMessagesWithLimit (prevMessages ++ [botMessage])) st
        | None => catch_ typeError random36 st
        end
    | Rejected error => catch_ error random36 st
    end.

(** Lines 156 and 160. *)
Definition textarea_disabled (st : State) : bool := isLoading st.

Definition button_disabled (st : State) : bool :=
  isLoading st || not_ (trim (input st)).

(* ================================================================= *)
(** ** The event loop *)

(** End of a macrotask: every activation whose signal was aborted is
    resumed with the cancellation error. *)
Definition drain (st : State) : State :=
  fold_left (fun s r => resume r (Rejected canceledError) [] s)
            (filter r_aborted (requests st))
            (set_requests (filter (fun r => negb (r_aborted r)) (requests st)) st).

(** The macrotasks of a session.  [random36] is what
    [Math.random().toString(36)] returns to the handler, should it create
    a message. *)
Inductive Event :=
| Tick (ms : Z)                       (* time passes *)
| Change (value : JsString.t)         (* the debounced [setInput] runs *)
| Submit (random36 : JsString.t)      (* click on Send, or Enter *)
| Respond (n : nat) (response : AxiosResponse) (random36 : JsString.t)
                                      (* the call of activation [n] resolves *)
| Fail (n : nat) (f : Failure) (random36 : JsString.t)
                                      (* the call of activation [n] rejects *)
| Timeout (n : nat)                   (* timer [n] fires *)
| Unmount.

Definition find_request (n : nat) (st : State) : option Request :=
  find (fun r => Nat.eqb (r_id r) n) (requests st).

Definition remove_request (n : nat) (st : State) : State :=
  set_requests (filter (fun r => negb (Nat.eqb (r_id r) n)) (requests st)) st.

Definition timer_due (n : nat) (st : State) : bool :=
  existsb (fun t => Nat.eqb (fst t) n && (snd t <=? clock st)) (timers st).

(** One macrotask; [None] when the event cannot happen in [st]: the
    component is gone, the call is not in flight, the timer is not due. *)
Definition step (e : Event) (st : State) : option State :=
  if negb (mounted st) then None else
  match e with
  | Tick ms =>
      if 0 <=? ms then Some (set_clock (clock st + ms) st) else None
  | Change value =>
      Some (setInput value st)
  | Submit random36 =>
      Some (drain (sendMessage (render st) random36 st))
  | Respond n response random36 =>
      match find_request n st with
      | Some r =>
          Some (drain (resume r (Fulfilled response) random36 (remove_request n st)))
      | None => None
      end
  | Fail n f random36 =>
      match find_request n st with
      | Some r =>
          Some (drain (resume r (Rejected (error_of f)) random36 (remove_request n st)))
      | None => None
      end
  | Timeout n =>
      if timer_due n st
      then Some (drain (onTimeout (clearTimeout n st)))
      else None
  | Unmount =>
      Some (set_mounted false (drain (cleanup st)))
  end.

Fixpoint run (es : list Event) (st : State) : option State :=
  match es with
  | [] => Some st
  | e :: es' =>
      match step e st with
      | Some st' => run es' st'
      | None => None
      end
  end.

(** The states of a session. *)
Definition reachable (st : State) : Prop :=
  exists t0 es, run es (initialState t0) = Some st.

(* ================================================================= *)
(** ** Phases of the lifecycle *)

(** No call is in flight. *)
Definition idle (st : State) : Prop :=
  requests st = [] /\ isLoading st = false /\ abortControllerRef st = None.

(** Activation [r] is the one call in flight. *)
Definition busy (r : Request) (st : State) : Prop :=
  requests st = [r]
  /\ isLoading st = true
  /\ abortControllerRef st = Some (r_id r)
  /\ r_aborted r = false
  /\ In (r_id r) (map fst (timers st)).

(** What holds between macrotasks: the history is within the cap, at most
    one call is in flight, timers carry distinct identities already handed
    out, and nothing is in flight once the component is unmounted. *)
Record Inv (st : State) : Prop := mkInv {
  inv_cap : Z.of_nat (length (messages st)) <= MAX_MESSAGES;
  inv_phase : idle st \/ exists r, busy r st;
  inv_fresh : forall n, In n (map fst (timers st)) -> (n < next_id st)%nat;
  inv_nodup : NoDup (map fst (timers st));
  inv_unmounted : mounted st = false -> requests st = []
}.

(** What a run may change: identities only grow, time only advances, an
    activation or a timer present afterwards was there before or is new,
    and the history stands still around an activation that stays in
    flight. *)
Record Effect (st st' : State) : Prop := mkEffect {
  eff_next : (next_id st <= next_id st')%nat;
  eff_clock : clock st <= clock st';
  eff_requests :
    forall r, In r (requests st') ->
              In r (requests st) \/ (next_id st <= r_id r)%nat;
  eff_timers :
    forall t, In t (timers st') ->
              In t (timers st) \/ (next_id st <= fst t)%nat;
  eff_messages :
    forall r, In r (requests st) -> In r (requests st') ->
              messages st' = messages st
}.

(** The messages and the activation of a submission made in [st]. *)
Definition userMessage_of (rnd : JsString.t) (st : State) : Message :=
  mkMessage (trim (input st)) true (createMessageId (clock st) rnd).

Definition request_of (rnd : JsString.t) (st : State) : Request :=
  mkRequest (next_id st) (userMessage_of rnd st) false.

(** The state in which [sendMessage] issues its call: the user message is
    already in the history, the input is cleared, the flag is up. *)
Definition enqueued (rnd : JsString.t) (st : State) : State :=
  setInput []
    (setMessages (fun prevMessages =>
                    setMessagesWithLimit (prevMessages ++ [userMessage_of rnd st]))
       (setIsLoading true st)).

Definition botMessage_of (reply : JsString.t) (rnd : JsString.t) (st : State) : Message :=
  mkMessage reply false (createMessageId (clock st) rnd).

(* ================================================================= *)
(** ** Sample runs *)

Definition sample_reply : AxiosResponse :=
  mkResponse 200 (mkData [mkChoice (mkChatMessage (str "hello"))]).

(** The state a session started at time 0 is in after [es]. *)
Definition state_after (es : list Event) : State :=
  match run es (initialState 0) with
  | Some st => st
  | None => initialState 0
  end.

(** "hi" is typed. *)
Definition typed : State :=
  Eval vm_compute in state_after [Change (str "hi")].

(** "hi" is sent and its call is in flight. *)
Definition waiting : State :=
  Eval vm_compute in state_after [Change (str "hi"); Submit (str "0.a")].

(** White space only is typed. *)
Definition spaces_typed : State :=
  Eval vm_compute in state_after [Change [32; 9; 10; 160; 12288]].

(** The reply to "hi" has arrived after 1200 ms. *)
Definition replied : State :=
  Eval vm_compute in
    state_after [Change (str "hi"); Submit (str "0.a"); Tick 1200;
                 Respond 0 sample_reply (str "0.b")].

(** "hi" is in flight and "again" has been typed. *)
Definition retyped : State :=
  Eval vm_compute in
    state_after [Change (str "hi"); Submit (str "0.a"); Change (str "again")].

(** The timer of the call for "hi" has fired. *)
Definition timed_out : State :=
  Eval vm_compute in
    state_after [Change (str "hi"); Submit (str "0.a"); Tick 30000; Timeout 0].

(** The call for "hi" has been in flight for 30000 ms. *)
Definition overdue : State :=
  Eval vm_compute in
    state_after [Change (str "hi"); Submit (str "0.a"); Tick 30000].

(** A second call, issued 29 s after the first one failed with status 500,
    has been in flight for 1 s. *)
Definition second_call : State :=
  Eval vm_compute in
    state_after [Change (str "hi"); Submit (str "0.a");
                 Fail 0 (BadStatus 500) (str "0.b");
                 Tick 29000; Change (str "again"); Submit (str "0.c");
                 Tick 1000].

(** A reply has been shown, "more" is in flight and has been for 45 s. *)
Definition stalled : State :=
  Eval vm_compute in
    state_after [Change (str "hi"); Submit (str "0.a");
                 Respond 0 sample_reply (str "0.b");
                 Change (str "more"); Tick 5000; Submit (str "0.c");
                 Tick 45000].

(* ================================================================= *)
(** ** Reading an id back *)

(** The value of one base-36 digit, [0-9a-z]. *)
Definition undigit36 (c : Z) : Z :=
  if c <? 58 then c - 48 else c - 87.

(** [parseInt(s, 36)] on a string of base-36 digits. *)
Fixpoint parse36 (s : JsString.t) : Z :=
  match s with
  | [] => 0
  | c :: rest => undigit36 c * 36 ^ Z.of_nat (length rest) + parse36 rest
  end.

(* ================================================================= *)
(** ** The request body *)

(** The second argument of [axios.post] (lines 89-92). *)
Module PostBody.

Record Turn := mkTurn { role : string; content : JsString.t }.

Record t := mk { model : string; messages : list Turn }.

End PostBody.

Definition body_of (userMessage : Message) : PostBody.t :=
  PostBody.mk "gpt-3.5-turbo" [PostBody.mkTurn "user" (text userMessage)].

(* ================================================================= *)
(** ** The input field and the Send button *)

(** [handleKeyPress] (lines 134-139): whether the key event reaches
    [sendMessage]. *)
Definition handleKeyPress (key : string) (shiftKey : bool) : bool :=
  (key =? "Enter")%string && negb shiftKey.

(** The component with the state of [debouncedSetInput] (lines 50-53):
    the argument and the time of its last call, until the debounced
    function has run. *)
Record Ui := mkUi {
  app : State;
  debounced : option (JsString.t * Z)
}.

Definition initialUi (t0 : Z) : Ui := mkUi (initialState t0) None.

(** What happens to the page.  The environment supplies [Tick],
    [Respond], [Fail], [Timeout] and [Unmount]; [Change] and [Submit]
    come from the controls only. *)
Inductive UiEvent :=
| OnChange (value : JsString.t)       (* the textarea changes (line 153) *)
| Debounce                            (* the debounced function runs *)
| KeyDown (key : string) (shiftKey : bool) (random36 : JsString.t)
                                      (* a key goes down in the textarea *)
| Click (random36 : JsString.t)       (* the button is clicked (line 159) *)
| Env (e : Event).

Definition from_env (e : Event) : bool :=
  match e with
  | Change _ | Submit _ => false
  | _ => true
  end.

(** One macrotask of the page.  A disabled control receives no event;
    the debounced function runs once 150 ms have passed since its last
    call. *)
Definition ui_step (e : UiEvent) (ui : Ui) : option Ui :=
  let st := app ui in
  match e with
  | OnChange value =>
      if mounted st && negb (textarea_disabled st)
      then Some (mkUi st (Some (value, clock st)))
      else None
  | Debounce =>
      match debounced ui with
      | Some (value, lastCallTime) =>
          if lastCallTime + 150 <=? clock st
          then Some (mkUi (if mounted st then setInput value st else st) None)
          else None
      | None => None
      end
  | KeyDown key shiftKey random36 =>
      if mounted st && negb (textarea_disabled st)
      then if handleKeyPress key shiftKey
           then option_map (fun st' => mkUi st' (debounced ui))
                           (step (Submit random36) st)
           else Some ui
      else None
  | Click random36 =>
      if mounted st && negb (button_disabled st)
      then option_map (fun st' => mkUi st' (debounced ui))
                      (step (Submit random36) st)
      else None
  | Env e' =>
      if from_env e'
      then option_map (fun st' => mkUi st' (debounced ui)) (step e' st)
      else None
  end.

Fixpoint ui_run (es : list UiEvent) (ui : Ui) : option Ui :=
  match es with
  | [] => Some ui
  | e :: es' =>
      match ui_step e ui with
      | Some ui' => ui_run es' ui'
      | None => None
      end
  end.

Definition ui_reachable (ui : Ui) : Prop :=
  exists t0 es, ui_run es (initialUi t0) = Some ui.


Definition waiting_only (e : UiEvent) : bool :=
  match e with
  | Env (Tick _) => true
  | _ => false
  end.

(* ================================================================= *)
(** ** What the component renders *)

(** One [MessageComponent] of the chat box (lines 16-20, 145-147). *)
Module Bubble.

Record t := mk { key : JsString.t; className : string; text : JsString.t }.

End Bubble.

Definition MessageComponent (msg : Message) : Bubble.t :=
  Bubble.mk (id msg)
            (if isUser msg then "user-message" else "bot-message")
            (text msg).

(** The element returned by [App] (lines 141-166), as far as it depends
    on the state. *)
Record View := mkView {
  chat_box : list Bubble.t;
  textarea_value : JsString.t;
  textarea_is_disabled : bool;
  button_is_disabled : bool;
  button_label : string
}.

Definition view (st : State) : View :=
  mkView (map MessageComponent (messages st))
         (input st)
         (textarea_disabled st)
         (button_disabled st)
         (if isLoading st then "Sending..." else "Send").

(* ================================================================= *)
(** ** Shapes of texts and histories *)

(** Empty, or starting with a character that is not white space. *)
Definition headOk (s : JsString.t) : bool :=
  match s with
  | [] => true
  | c :: _ => negb (isWhiteSpace c)
  end.

(** What a user message of the history looks like. *)
Definition sent_text (m : Message) : Prop :=
  isUser m = true ->
  text m <> [] /\ trim (text m) = text m /\ blank (text m) = false.

(** The user message of a call in flight is the newest entry. *)
Definition awaits_reply (st : State) : Prop :=
  forall r, In r (requests st) ->
            isUser (r_userMessage r) = true
            /\ exists kept, messages st = kept ++ [r_userMessage r].

(* ================================================================= *)
(** ** Sample runs of the page *)

(** Padded input is sent, and a reply comes back. *)
Definition padded_replied : State :=
  Eval vm_compute in
    state_after [Change (str "  hi there 	"); Submit (str "0.a");
                 Respond 0 sample_reply (str "0.b")].


(** "hi" has reached [input]; "hi!" was typed 20 ms ago. *)
Definition late_typed : Ui :=
  Eval vm_compute in
    match ui_run [OnChange (str "hi"); Env (Tick 150); Debounce;
                  OnChange (str "hi!"); Env (Tick 20)] (initialUi 0) with
    | Some ui => ui
    | None => initialUi 0
    end.

Definition late_sent : Ui :=
  Eval vm_compute in
    match ui_run [Click (str "0.a")] late_typed with
    | Some ui => ui
    | None => late_typed
    end.

Definition late_waited : Ui :=
  Eval vm_compute in
    match ui_run [Env (Tick 130)] late_sent with
    | Some ui => ui
    | None => late_sent
    end.

Definition late_returned : Ui :=
  Eval vm_compute in
    match ui_run [Debounce] late_waited with
    | Some ui => ui
    | None => late_waited
    end.

(* ================================================================= *)
(** ** Where ids come from *)

(** The random digits a macrotask hands to [createMessageId], when it
    makes a message: a submission the guard admits, or the settling of a
    call in flight. *)
Definition creates (e : Event) (st : State) : option JsString.t :=
  match e with
  | Submit random36 =>
      if button_disabled st then None else Some random36
  | Respond n _ random36 | Fail n _ random36 =>
      match find_request n st with
      | Some _ => Some random36
      | None => None
      end
  | _ => None
  end.

(** The clock reading and the random digits behind each message made
    during a run, in order. *)
Fixpoint stamps (es : list Event) (st : State) : list (Z * JsString.t) :=
  match es with
  | [] => []
  | e :: es' =>
      match step e st with
      | Some st' =>
          match creates e st with
          | Some random36 => (clock st, substr 2 random36) :: stamps es' st'
          | None => stamps es' st'
          end
      | None => []
      end
  end.

(** The id made from a reading and the digits. *)
Definition id_of_stamp (p : Z * JsString.t) : JsString.t :=
  toString36 (fst p) ++ snd p.

(** "hi" was rejected with status 429; "again" has been in flight for
    30 s. *)
Definition unanswered : State :=
  Eval vm_compute in
    state_after [Change (str "hi"); Submit (str "0.a");
                 Fail 0 (BadStatus 429) (str "0.b");
                 Tick 31000; Timeout 0;
                 Change (str "again"); Submit (str "0.c"); Tick 30000].

(** The reply to "hi" arrives in the millisecond of the submission, and
    the random digits are the same. *)
Definition same_reading : State :=
  Eval vm_compute in
    state_after [Change (str "hi"); Submit (str "0.a");
                 Respond 0 sample_reply (str "0.a")].

(** A session of 2023: the reply arrives 800 ms after the submission,
    with the same random digits. *)
Definition session_2023 : list Event :=
  [Change (str "hi"); Submit (str "0.a"); Tick 800;
   Respond 0 sample_reply (str "0.a")].

Definition replied_2023 : State :=
  Eval vm_compute in
    match run session_2023 (initialState 1700000000000) with
    | Some st => st
    | None => initialState 1700000000000
    end.

(* ================================================================= *)
(** ** Facts about strings *)

Lemma trimStart_nil_iff (s : JsString.t) : trimStart s = [] <-> blank s = true.
Proof.
  induction s as [|c s IH]; simpl.
  - tauto.
  - destruct (isWhiteSpace c); simpl.
    + exact IH.
    + split; discriminate.
Qed.

Lemma blank_app (s1 s2 : JsString.t) : blank (s1 ++ s2) = blank s1 && blank s2.
Proof. apply forallb_app. Qed.

Lemma blank_rev (s : JsString.t) : blank (rev s) = blank s.
Proof.
  induction s as [|c s IH]; simpl; [reflexivity|].
  rewrite blank_app, IH. simpl. rewrite andb_true_r. apply andb_comm.
Qed.

Lemma blank_trimStart (s : JsString.t) : blank (trimStart s) = blank s.
Proof.
  induction s as [|c s IH]; simpl; [reflexivity|].
  destruct (isWhiteSpace c) eqn:E; simpl.
  - exact IH.
  - rewrite E. reflexivity.
Qed.

Lemma rev_nil_iff {A : Type} (l : list A) : rev l = [] <-> l = [].
Proof.
  split; intro H.
  - rewrite <- (rev_involutive l), H. reflexivity.
  - subst. reflexivity.
Qed.

(** [input.trim()] is the empty string exactly when the input is empty or
    white space only. *)
Lemma not_trim_blank (s : JsString.t) : not_ (trim s) = blank s.
Proof.
  destruct (blank s) eqn:B.
  - assert (H : trim s = []).
    { unfold trim, trimEnd. apply rev_nil_iff, trimStart_nil_iff.
      rewrite blank_rev, blank_trimStart. exact B. }
    rewrite H. reflexivity.
  - destruct (trim s) eqn:T; [|reflexivity].
    unfold trim, trimEnd in T. apply rev_nil_iff, trimStart_nil_iff in T.
    rewrite blank_rev, blank_trimStart in T. congruence.
Qed.

(* ================================================================= *)
(** ** Facts about the cap *)

(** [a.slice(-n)] keeps the last [n] elements. *)
Lemma slice_last {A : Type} (n : Z) (a : list A) :
  0 < n ->
  slice (- n) a = skipn (Z.to_nat (Z.max (Z.of_nat (length a) - n) 0)) a.
Proof.
  intro Hn. unfold slice. cbv zeta.
  destruct (Z.ltb_spec (- n) 0) as [_|H]; [|lia].
  f_equal.
Qed.

Lemma setMessagesWithLimit_length (l : list Message) :
  Z.of_nat (length (setMessagesWithLimit l)) <= MAX_MESSAGES.
Proof.
  unfold setMessagesWithLimit, MAX_MESSAGES.
  destruct (Z.of_nat (length l) >? 5000) eqn:E.
  - rewrite Z.gtb_ltb, Z.ltb_lt in E.
    rewrite slice_last by lia. rewrite length_skipn. lia.
  - rewrite Z.gtb_ltb, Z.ltb_ge in E. exact E.
Qed.

Lemma setMessagesWithLimit_small (l : list Message) :
  Z.of_nat (length l) <= MAX_MESSAGES -> setMessagesWithLimit l = l.
Proof.
  intro H. unfold setMessagesWithLimit.
  destruct (Z.of_nat (length l) >? MAX_MESSAGES) eqn:E; [|reflexivity].
  rewrite Z.gtb_ltb, Z.ltb_lt in E. lia.
Qed.

(** The survivors are a suffix of the argument: the oldest entries are the
    ones dropped, and as few as the cap requires. *)
Lemma setMessagesWithLimit_suffix (l : list Message) :
  exists dropped,
    l = dropped ++ setMessagesWithLimit l
    /\ Z.of_nat (length dropped) = Z.max 0 (Z.of_nat (length l) - MAX_MESSAGES).
Proof.
  unfold setMessagesWithLimit, MAX_MESSAGES.
  destruct (Z.of_nat (length l) >? 5000) eqn:E.
  - rewrite Z.gtb_ltb, Z.ltb_lt in E.
    rewrite slice_last by lia.
    exists (firstn (Z.to_nat (Z.max (Z.of_nat (length l) - 5000) 0)) l).
    split.
    + symmetry. apply firstn_skipn.
    + rewrite length_firstn. lia.
  - rewrite Z.gtb_ltb, Z.ltb_ge in E.
    exists []. split; [reflexivity|]. simpl. lia.
Qed.

(** Appending one entry and capping keeps the new entry last and, before
    it, a suffix of the old history. *)
Lemma setMessagesWithLimit_snoc (l : list Message) (m : Message) :
  exists dropped kept,
    l = dropped ++ kept
    /\ setMessagesWithLimit (l ++ [m]) = kept ++ [m]
    /\ (Z.of_nat (length l) < MAX_MESSAGES -> dropped = []).
Proof.
  destruct (setMessagesWithLimit_suffix (l ++ [m])) as (d & Hd & Hlen).
  pose proof (setMessagesWithLimit_length (l ++ [m])) as Hcap.
  rewrite length_app in Hlen. simpl in Hlen.
  destruct (setMessagesWithLimit (l ++ [m])) as [|x xs] eqn:E using rev_ind.
  - exfalso. rewrite app_nil_r in Hd. subst d.
    rewrite length_app in Hlen. simpl in Hlen. unfold MAX_MESSAGES in Hlen. lia.
  - rewrite app_assoc in Hd.
    apply app_inj_tail in Hd. destruct Hd as [Hl Hm]. subst x.
    exists d, xs. split; [exact Hl|]. split; [reflexivity|].
    intro Hlt. destruct d; [reflexivity|]. simpl in Hlen. lia.
Qed.

Lemma app_eq_length {A : Type} (a b c d : list A) :
  length a = length c -> a ++ b = c ++ d -> a = c /\ b = d.
Proof.
  revert c. induction a as [|x a IH]; destruct c as [|y c]; simpl;
    try discriminate; intros Hl H.
  - auto.
  - injection Hl as Hl. injection H as -> H.
    destruct (IH c Hl H) as [-> ->]. auto.
Qed.

(** Appending a second entry to a capped history keeps the first one. *)
Lemma setMessagesWithLimit_snoc2 (k : list Message) (u m : Message) :
  Z.of_nat (length (k ++ [u])) <= MAX_MESSAGES ->
  exists dropped kept,
    k = dropped ++ kept
    /\ setMessagesWithLimit ((k ++ [u]) ++ [m]) = kept ++ [u; m]
    /\ (Z.of_nat (length (k ++ [u])) < MAX_MESSAGES -> dropped = []).
Proof.
  intro Hcap.
  remember (setMessagesWithLimit ((k ++ [u]) ++ [m])) as L eqn:HL.
  destruct (setMessagesWithLimit_suffix ((k ++ [u]) ++ [m])) as (d & Hd & Hlen).
  rewrite <- HL in Hd. clear HL.
  rewrite !length_app in Hlen. rewrite length_app in Hcap. simpl in Hlen, Hcap.
  unfold MAX_MESSAGES in Hlen, Hcap.
  assert (Hdk : (length d <= length k)%nat) by lia.
  exists (firstn (length d) k), (skipn (length d) k).
  split; [|split].
  - symmetry. apply firstn_skipn.
  - rewrite <- (firstn_skipn (length d) k) in Hd at 1.
    rewrite <- !app_assoc in Hd.
    apply app_eq_length in Hd.
    + destruct Hd as [_ Hd]. rewrite <- Hd. reflexivity.
    + rewrite length_firstn. lia.
  - rewrite length_app. simpl. unfold MAX_MESSAGES. intro Hlt.
    destruct d; [reflexivity|]. simpl in Hlen. lia.
Qed.

(* ================================================================= *)
(** ** Invariants of the request lifecycle *)

Lemma Inv_initial (t0 : Z) : Inv (initialState t0).
Proof.
  constructor; simpl.
  - unfold MAX_MESSAGES. lia.
  - left. repeat split.
  - intros n [].
  - constructor.
  - reflexivity.
Qed.

Lemma set_requests_same (st : State) : set_requests (requests st) st = st.
Proof. destruct st; reflexivity. Qed.

Lemma drain_idle (st : State) : requests st = [] -> drain st = st.
Proof.
  intro H. unfold drain. rewrite H. simpl. rewrite <- H. apply set_requests_same.
Qed.

Lemma drain_one (r : Request) (st : State) :
  requests st = [r] -> r_aborted r = false -> drain st = st.
Proof.
  intros H Hr. unfold drain. rewrite H. simpl. rewrite Hr. simpl.
  rewrite <- H. apply set_requests_same.
Qed.

Lemma filter_fst_incl (p : nat * Z -> bool) (ts : list (nat * Z)) (n : nat) :
  In n (map fst (filter p ts)) -> In n (map fst ts).
Proof.
  rewrite !in_map_iff. intros (t & Ht & Hin).
  apply filter_In in Hin. exists t. tauto.
Qed.

Lemma filter_fst_nodup (p : nat * Z -> bool) (ts : list (nat * Z)) :
  NoDup (map fst ts) -> NoDup (map fst (filter p ts)).
Proof.
  induction ts as [|t ts IH]; simpl; intro H; [constructor|].
  inversion H as [|? ? Hnot Hnd]; subst.
  destruct (p t); simpl; [|auto].
  constructor; [|auto].
  intro Hin. apply Hnot. eapply filter_fst_incl; eauto.
Qed.

(** *** What one macrotask does, by phase *)

Lemma find_request_one (r : Request) (n : nat) (st : State) :
  requests st = [r] ->
  find_request n st = if Nat.eqb (r_id r) n then Some r else None.
Proof. intro H. unfold find_request. rewrite H. reflexivity. Qed.

Lemma step_Submit_idle (rnd : JsString.t) (st : State) :
  mounted st = true -> idle st ->
  step (Submit rnd) st = Some (sendMessage (render st) rnd st).
Proof.
  intros Hm (Hreq & Hld & Href). unfold step. rewrite Hm. simpl. f_equal.
  unfold sendMessage, post, render. simpl. rewrite Hld, orb_false_r.
  destruct (not_ (trim (input st))).
  - apply drain_idle. exact Hreq.
  - unfold cancelPreviousRequest. rewrite Href.
    eapply drain_one; simpl; [rewrite Hreq|]; reflexivity.
Qed.

Lemma step_Submit_busy (rnd : JsString.t) (r : Request) (st : State) :
  mounted st = true -> busy r st -> step (Submit rnd) st = Some st.
Proof.
  intros Hm (Hreq & Hld & Href & Hab & Htm). unfold step. rewrite Hm. simpl.
  f_equal. unfold sendMessage, post, render. simpl. rewrite Hld, orb_true_r.
  eapply drain_one; eauto.
Qed.

Lemma drain_resumed (r : Request) (o : Settled) (rnd : JsString.t) (st : State) :
  requests st = [] -> drain (resume r o rnd st) = resume r o rnd st.
Proof.
  intro H. apply drain_idle. unfold resume, finally_, catch_.
  destruct o as [response|error]; simpl.
  - destruct (content_of response); simpl; exact H.
  - destruct (isAxiosError error && (name error =? "CanceledError")%string);
      simpl; exact H.
Qed.

Lemma remove_request_one (r : Request) (st : State) :
  requests st = [r] -> remove_request (r_id r) st = set_requests [] st.
Proof.
  intro H. unfold remove_request. rewrite H. simpl.
  rewrite Nat.eqb_refl. reflexivity.
Qed.

Lemma step_Respond_busy (n : nat) (response : AxiosResponse) (rnd : JsString.t)
                        (r : Request) (st : State) :
  mounted st = true -> busy r st ->
  step (Respond n response rnd) st =
    if Nat.eqb (r_id r) n
    then Some (resume r (Fulfilled response) rnd (set_requests [] st))
    else None.
Proof.
  intros Hm (Hreq & _). unfold step. rewrite Hm. simpl.
  rewrite (find_request_one r) by exact Hreq.
  destruct (Nat.eqb_spec (r_id r) n) as [<-|]; [|reflexivity].
  rewrite (remove_request_one r) by exact Hreq.
  rewrite drain_resumed by reflexivity. reflexivity.
Qed.

Lemma step_Fail_busy (n : nat) (f : Failure) (rnd : JsString.t)
                     (r : Request) (st : State) :
  mounted st = true -> busy r st ->
  step (Fail n f rnd) st =
    if Nat.eqb (r_id r) n
    then Some (resume r (Rejected (error_of f)) rnd (set_requests [] st))
    else None.
Proof.
  intros Hm (Hreq & _). unfold step. rewrite Hm. simpl.
  rewrite (find_request_one r) by exact Hreq.
  destruct (Nat.eqb_spec (r_id r) n) as [<-|]; [|reflexivity].
  rewrite (remove_request_one r) by exact Hreq.
  rewrite drain_resumed by reflexivity. reflexivity.
Qed.

Lemma step_Respond_idle (n : nat) (response : AxiosResponse) (rnd : JsString.t)
                        (st : State) :
  idle st -> step (Respond n response rnd) st = None.
Proof.
  intros (Hreq & _). unfold step, find_request. rewrite Hreq.
  destruct (mounted st); reflexivity.
Qed.

Lemma step_Fail_idle (n : nat) (f : Failure) (rnd : JsString.t) (st : State) :
  idle st -> step (Fail n f rnd) st = None.
Proof.
  intros (Hreq & _). unfold step, find_request. rewrite Hreq.
  destruct (mounted st); reflexivity.
Qed.

(** An abort of the controller in flight, then the end of the macrotask:
    the activation leaves through the cancellation branch of [catch] and
    through [finally]. *)
Lemma drain_abort_busy (r : Request) (st : State) :
  requests st = [r] ->
  drain (abort (r_id r) st) = finally_ (set_requests [] st).
Proof.
  intro H. unfold drain, abort. simpl. rewrite H. simpl.
  rewrite Nat.eqb_refl. simpl. reflexivity.
Qed.

Lemma step_Timeout_busy (n : nat) (r : Request) (st : State) :
  mounted st = true -> busy r st ->
  step (Timeout n) st =
    if timer_due n st
    then Some (finally_ (set_requests [] (clearTimeout n st)))
    else None.
Proof.
  intros Hm (Hreq & Hld & Href & _). unfold step. rewrite Hm. simpl.
  destruct (timer_due n st); [|reflexivity]. f_equal.
  unfold onTimeout. simpl. rewrite Href.
  apply drain_abort_busy. simpl. exact Hreq.
Qed.

Lemma step_Timeout_idle (n : nat) (st : State) :
  mounted st = true -> idle st ->
  step (Timeout n) st =
    if timer_due n st then Some (clearTimeout n st) else None.
Proof.
  intros Hm (Hreq & Hld & Href). unfold step. rewrite Hm. simpl.
  destruct (timer_due n st); [|reflexivity]. f_equal.
  unfold onTimeout. simpl. rewrite Href.
  apply drain_idle. simpl. exact Hreq.
Qed.

Lemma step_Unmount_busy (r : Request) (st : State) :
  mounted st = true -> busy r st ->
  step Unmount st = Some (set_mounted false (finally_ (set_requests [] st))).
Proof.
  intros Hm (Hreq & Hld & Href & _). unfold step. rewrite Hm. simpl.
  unfold cleanup. rewrite Href. rewrite (drain_abort_busy r) by exact Hreq.
  reflexivity.
Qed.

Lemma step_Unmount_idle (st : State) :
  mounted st = true -> idle st ->
  step Unmount st = Some (set_mounted false st).
Proof.
  intros Hm (Hreq & Hld & Href). unfold step. rewrite Hm. simpl.
  unfold cleanup. rewrite Href. rewrite drain_idle by exact Hreq.
  reflexivity.
Qed.

Lemma step_mounted (e : Event) (st st' : State) :
  step e st = Some st' -> mounted st = true.
Proof.
  unfold step. destruct (mounted st); [reflexivity|discriminate].
Qed.

(** *** The outcome of a resumed activation *)

(** Case analysis along the branches of [resume]: reply read, reply
    unreadable, cancellation, any other error. *)
Ltac resume_cases o :=
  unfold resume, finally_, catch_;
  let response := fresh "response" in
  let error := fresh "error" in
  destruct o as [response|error]; simpl;
  [ destruct (content_of response)
  | destruct (isAxiosError error && (name error =? "CanceledError")%string) ].

(** The history after [resume]: one entry more, or none when the error is
    the cancellation error. *)
Lemma resume_messages (r : Request) (o : Settled) (rnd : JsString.t) (st : State) :
  messages (resume r o rnd st) =
    match o with
    | Fulfilled response =>
        match content_of response with
        | Some reply =>
            setMessagesWithLimit (messages st ++ [botMessage_of reply rnd st])
        | None =>
            setMessagesWithLimit
              (messages st ++ [mkMessage failureText false (createMessageId (clock st) rnd)])
        end
    | Rejected error =>
        if isAxiosError error && (name error =? "CanceledError")%string
        then messages st
        else setMessagesWithLimit
               (messages st ++ [mkMessage (errorText error) false
                                          (createMessageId (clock st) rnd)])
    end.
Proof. resume_cases o; reflexivity. Qed.

Lemma resume_messages_cases (r : Request) (o : Settled) (rnd : JsString.t) (st : State) :
  messages (resume r o rnd st) = messages st
  \/ exists m, messages (resume r o rnd st) = setMessagesWithLimit (messages st ++ [m]).
Proof.
  rewrite resume_messages. destruct o as [response|error].
  - destruct (content_of response); right; eexists; reflexivity.
  - destruct (isAxiosError error && (name error =? "CanceledError")%string);
      [left|right; eexists]; reflexivity.
Qed.

Lemma resume_idle (r : Request) (o : Settled) (rnd : JsString.t) (st : State) :
  requests st = [] -> idle (resume r o rnd st).
Proof.
  intro H. unfold idle. resume_cases o; simpl; auto.
Qed.

Lemma resume_next_id (r : Request) (o : Settled) (rnd : JsString.t) (st : State) :
  next_id (resume r o rnd st) = next_id st.
Proof. resume_cases o; reflexivity. Qed.

Lemma resume_clock (r : Request) (o : Settled) (rnd : JsString.t) (st : State) :
  clock (resume r o rnd st) = clock st.
Proof. resume_cases o; reflexivity. Qed.

(** Only the success path clears the timer of the activation. *)
Lemma resume_timers (r : Request) (o : Settled) (rnd : JsString.t) (st : State) :
  timers (resume r o rnd st) =
    match o with
    | Fulfilled _ => filter (fun t => negb (Nat.eqb (fst t) (r_id r))) (timers st)
    | Rejected _ => timers st
    end.
Proof. resume_cases o; reflexivity. Qed.

Lemma resume_timers_incl (r : Request) (o : Settled) (rnd : JsString.t) (st : State) :
  exists p, timers (resume r o rnd st) = filter p (timers st).
Proof.
  rewrite resume_timers. destruct o.
  - eexists; reflexivity.
  - exists (fun _ => true). symmetry. apply forallb_filter_id.
    apply forallb_forall. reflexivity.
Qed.

Lemma Inv_filter_timers (p : nat * Z -> bool) (st st' : State) :
  Inv st ->
  timers st' = filter p (timers st) ->
  next_id st' = next_id st ->
  Z.of_nat (length (messages st')) <= MAX_MESSAGES ->
  idle st' ->
  Inv st'.
Proof.
  intros [Hcap Hphase Hfresh Hnodup Hun] Ht Hn Hc Hi.
  constructor; auto.
  - intros n Hin. rewrite Hn. apply Hfresh.
    rewrite Ht in Hin. eapply filter_fst_incl; eauto.
  - rewrite Ht. apply filter_fst_nodup. exact Hnodup.
  - intros _. apply Hi.
Qed.

Lemma resume_cap (r : Request) (o : Settled) (rnd : JsString.t) (st : State) :
  Z.of_nat (length (messages st)) <= MAX_MESSAGES ->
  Z.of_nat (length (messages (resume r o rnd st))) <= MAX_MESSAGES.
Proof.
  intro H. destruct (resume_messages_cases r o rnd st) as [E|(m & E)]; rewrite E.
  - exact H.
  - apply setMessagesWithLimit_length.
Qed.

Lemma timer_due_In (n : nat) (st : State) :
  timer_due n st = true ->
  exists d, In (n, d) (timers st) /\ d <= clock st.
Proof.
  unfold timer_due. rewrite existsb_exists. intros ([m d] & Hin & H).
  simpl in H. apply andb_true_iff in H. destruct H as [Hn Hd].
  apply Nat.eqb_eq in Hn. subst m. apply Z.leb_le in Hd. eauto.
Qed.

Lemma step_Inv (e : Event) (st st' : State) :
  Inv st -> step e st = Some st' -> Inv st'.
Proof.
  intros HI Hstep.
  pose proof (step_mounted _ _ _ Hstep) as Hm.
  pose proof HI as [Hcap Hphase Hfresh Hnodup Hun].
  destruct e as [ms|value|rnd|n response rnd|n f rnd|n|].
  - (* Tick *)
    unfold step in Hstep. rewrite Hm in Hstep. simpl in Hstep.
    destruct (0 <=? ms); [|discriminate]. injection Hstep as <-.
    constructor; simpl; auto.
  - (* Change *)
    unfold step in Hstep. rewrite Hm in Hstep. simpl in Hstep.
    injection Hstep as <-. constructor; simpl; auto.
  - (* Submit *)
    destruct Hphase as [Hidle|(r & Hbusy)].
    + rewrite step_Submit_idle in Hstep by assumption. injection Hstep as <-.
      pose proof Hidle as (Hreq & Hld & Href).
      unfold sendMessage, post, render. simpl. rewrite Hld, orb_false_r.
      destruct (not_ (trim (input st))); [exact HI|].
      unfold cancelPreviousRequest. rewrite Href.
      constructor; simpl.
      * apply setMessagesWithLimit_length.
      * right. eexists. unfold busy. simpl. rewrite Hreq. simpl.
        repeat split. rewrite map_app. apply in_or_app. right. simpl. auto.
      * intros n. rewrite map_app, in_app_iff. simpl.
        intros [H|[H|[]]]; [apply Hfresh in H|]; lia.
      * rewrite map_app. simpl.
        apply NoDup_rev in Hnodup.
        rewrite <- (rev_involutive (map fst (timers st) ++ [next_id st])).
        apply NoDup_rev. rewrite rev_app_distr. simpl.
        constructor; [|exact Hnodup].
        rewrite <- in_rev. intro H. apply Hfresh in H. lia.
      * congruence.
    + rewrite (step_Submit_busy rnd r) in Hstep by assumption.
      injection Hstep as <-. exact HI.
  - (* Respond *)
    destruct Hphase as [Hidle|(r & Hbusy)].
    + rewrite step_Respond_idle in Hstep by assumption. discriminate.
    + rewrite (step_Respond_busy n response rnd r) in Hstep by assumption.
      destruct (Nat.eqb (r_id r) n); [|discriminate]. injection Hstep as <-.
      destruct (resume_timers_incl r (Fulfilled response) rnd (set_requests [] st))
        as (p & Hp).
      change (timers (set_requests [] st)) with (timers st) in Hp.
      apply (Inv_filter_timers p st _ HI Hp).
      * rewrite resume_next_id. reflexivity.
      * apply resume_cap. exact Hcap.
      * apply resume_idle. reflexivity.
  - (* Fail *)
    destruct Hphase as [Hidle|(r & Hbusy)].
    + rewrite step_Fail_idle in Hstep by assumption. discriminate.
    + rewrite (step_Fail_busy n f rnd r) in Hstep by assumption.
      destruct (Nat.eqb (r_id r) n); [|discriminate]. injection Hstep as <-.
      destruct (resume_timers_incl r (Rejected (error_of f)) rnd (set_requests [] st))
        as (p & Hp).
      change (timers (set_requests [] st)) with (timers st) in Hp.
      apply (Inv_filter_timers p st _ HI Hp).
      * rewrite resume_next_id. reflexivity.
      * apply resume_cap. exact Hcap.
      * apply resume_idle. reflexivity.
  - (* Timeout *)
    destruct Hphase as [Hidle|(r & Hbusy)].
    + rewrite step_Timeout_idle in Hstep by assumption.
      destruct (timer_due n st); [|discriminate]. injection Hstep as <-.
      eapply (Inv_filter_timers _ st); eauto; reflexivity.
    + rewrite (step_Timeout_busy n r) in Hstep by assumption.
      destruct (timer_due n st); [|discriminate]. injection Hstep as <-.
      eapply (Inv_filter_timers _ st); eauto; try reflexivity.
      repeat split.
  - (* Unmount *)
    destruct Hphase as [Hidle|(r & Hbusy)].
    + rewrite step_Unmount_idle in Hstep by assumption. injection Hstep as <-.
      constructor; simpl; auto. intros _. apply Hidle.
    + rewrite (step_Unmount_busy r) in Hstep by assumption. injection Hstep as <-.
      constructor; simpl; auto. left. repeat split.
Qed.

Lemma run_Inv (es : list Event) (st st' : State) :
  Inv st -> run es st = Some st' -> Inv st'.
Proof.
  revert st. induction es as [|e es IH]; simpl; intros st HI Hrun.
  - injection Hrun as <-. exact HI.
  - destruct (step e st) as [st1|] eqn:Hstep; [|discriminate].
    eapply IH; [|exact Hrun]. eapply step_Inv; eauto.
Qed.

Lemma reachable_Inv (st : State) : reachable st -> Inv st.
Proof.
  intros (t0 & es & Hrun). eapply run_Inv; [apply Inv_initial|exact Hrun].
Qed.

(** *** What a macrotask leaves alone *)

(** The identity of an activation in flight is below [next_id]. *)
Lemma busy_fresh (r : Request) (st : State) :
  Inv st -> busy r st -> (r_id r < next_id st)%nat.
Proof.
  intros HI (_ & _ & _ & _ & Htm). apply (inv_fresh st HI). exact Htm.
Qed.

Lemma Inv_requests (r : Request) (st : State) :
  Inv st -> In r (requests st) -> busy r st.
Proof.
  intros HI Hin. destruct (inv_phase st HI) as [(Hreq & _)|(r' & Hb)].
  - rewrite Hreq in Hin. destruct Hin.
  - pose proof Hb as (Hreq & _). rewrite Hreq in Hin.
    destruct Hin as [<-|[]]. exact Hb.
Qed.

Lemma Effect_refl (st : State) : Effect st st.
Proof. constructor; auto; lia. Qed.

Lemma Effect_settled (st st' : State) (p : nat * Z -> bool) :
  next_id st' = next_id st ->
  clock st' = clock st ->
  requests st' = [] ->
  timers st' = filter p (timers st) ->
  Effect st st'.
Proof.
  intros Hn Hc Hr Ht. constructor.
  - lia.
  - lia.
  - intros r Hin. rewrite Hr in Hin. destruct Hin.
  - intros t Hin. rewrite Ht in Hin. apply filter_In in Hin. tauto.
  - intros r _ Hin. rewrite Hr in Hin. destruct Hin.
Qed.

Lemma step_Effect (e : Event) (st st' : State) :
  Inv st -> step e st = Some st' -> Effect st st'.
Proof.
  intros HI Hstep.
  pose proof (step_mounted _ _ _ Hstep) as Hm.
  destruct e as [ms|value|rnd|n response rnd|n f rnd|n|].
  - unfold step in Hstep. rewrite Hm in Hstep. simpl in Hstep.
    destruct (Z.leb_spec 0 ms); [|discriminate]. injection Hstep as <-.
    constructor; simpl; auto; lia.
  - unfold step in Hstep. rewrite Hm in Hstep. simpl in Hstep.
    injection Hstep as <-. constructor; simpl; auto; lia.
  - destruct (inv_phase st HI) as [Hidle|(r & Hbusy)].
    + rewrite step_Submit_idle in Hstep by assumption. injection Hstep as <-.
      pose proof Hidle as (Hreq & Hld & Href).
      unfold sendMessage, post, render. simpl. rewrite Hld, orb_false_r.
      destruct (not_ (trim (input st))); [apply Effect_refl|].
      unfold cancelPreviousRequest. rewrite Href.
      constructor; simpl.
      * lia.
      * lia.
      * intros r. rewrite Hreq. simpl. intros [<-|[]]. right. simpl. lia.
      * intros t. rewrite in_app_iff. simpl. intros [H|[<-|[]]]; [tauto|].
        right. simpl. lia.
      * intros r. rewrite Hreq. intros [].
    + rewrite (step_Submit_busy rnd r) in Hstep by assumption.
      injection Hstep as <-. apply Effect_refl.
  - destruct (inv_phase st HI) as [Hidle|(r & Hbusy)].
    + rewrite step_Respond_idle in Hstep by assumption. discriminate.
    + rewrite (step_Respond_busy n response rnd r) in Hstep by assumption.
      destruct (Nat.eqb (r_id r) n); [|discriminate]. injection Hstep as <-.
      destruct (resume_timers_incl r (Fulfilled response) rnd (set_requests [] st))
        as (p & Hp).
      apply (Effect_settled _ _ p); auto.
      * rewrite resume_next_id. reflexivity.
      * rewrite resume_clock. reflexivity.
      * apply resume_idle. reflexivity.
  - destruct (inv_phase st HI) as [Hidle|(r & Hbusy)].
    + rewrite step_Fail_idle in Hstep by assumption. discriminate.
    + rewrite (step_Fail_busy n f rnd r) in Hstep by assumption.
      destruct (Nat.eqb (r_id r) n); [|discriminate]. injection Hstep as <-.
      destruct (resume_timers_incl r (Rejected (error_of f)) rnd (set_requests [] st))
        as (p & Hp).
      apply (Effect_settled _ _ p); auto.
      * rewrite resume_next_id. reflexivity.
      * rewrite resume_clock. reflexivity.
      * apply resume_idle. reflexivity.
  - destruct (inv_phase st HI) as [Hidle|(r & Hbusy)].
    + rewrite step_Timeout_idle in Hstep by assumption.
      destruct (timer_due n st); [|discriminate]. injection Hstep as <-.
      destruct Hidle as (Hreq & _).
      eapply Effect_settled; simpl; eauto.
    + rewrite (step_Timeout_busy n r) in Hstep by assumption.
      destruct (timer_due n st); [|discriminate]. injection Hstep as <-.
      eapply Effect_settled; simpl; eauto.
  - destruct (inv_phase st HI) as [Hidle|(r & Hbusy)].
    + rewrite step_Unmount_idle in Hstep by assumption. injection Hstep as <-.
      constructor; simpl; auto; lia.
    + rewrite (step_Unmount_busy r) in Hstep by assumption. injection Hstep as <-.
      constructor; simpl; auto; try lia; intros r0 _ [].
Qed.

Lemma run_Effect (es : list Event) (st st' : State) :
  Inv st -> run es st = Some st' -> Effect st st'.
Proof.
  revert st. induction es as [|e es IH]; simpl; intros st HI Hrun.
  - injection Hrun as <-. apply Effect_refl.
  - destruct (step e st) as [st1|] eqn:Hstep; [|discriminate].
    pose proof (step_Effect _ _ _ HI Hstep) as E1.
    pose proof (step_Inv _ _ _ HI Hstep) as HI1.
    pose proof (IH _ HI1 Hrun) as E2.
    constructor.
    + pose proof (eff_next _ _ E1). pose proof (eff_next _ _ E2). lia.
    + pose proof (eff_clock _ _ E1). pose proof (eff_clock _ _ E2). lia.
    + intros r Hin. pose proof (eff_next _ _ E1).
      destruct (eff_requests _ _ E2 r Hin) as [H1|H1]; [|right; lia].
      apply (eff_requests _ _ E1 r H1).
    + intros t Hin. pose proof (eff_next _ _ E1).
      destruct (eff_timers _ _ E2 t Hin) as [H1|H1]; [|right; lia].
      apply (eff_timers _ _ E1 t H1).
    + intros r Hin Hin'.
      assert (H1 : In r (requests st1)).
      { destruct (eff_requests _ _ E2 r Hin') as [H1|H1]; [exact H1|].
        pose proof (busy_fresh r st HI (Inv_requests r st HI Hin)).
        pose proof (eff_next _ _ E1). lia. }
      rewrite (eff_messages _ _ E2 r H1 Hin').
      apply (eff_messages _ _ E1 r Hin H1).
Qed.

(** *** The history across one macrotask *)

Lemma fold_canceled_messages (rs : list Request) (st : State) :
  messages (fold_left (fun s r => resume r (Rejected canceledError) [] s) rs st)
  = messages st.
Proof.
  revert st. induction rs as [|r rs IH]; simpl; intro st; [reflexivity|].
  rewrite IH. reflexivity.
Qed.

(** The continuations run at the end of a macrotask never touch the
    history, whatever the state. *)
Lemma drain_messages (st : State) : messages (drain st) = messages st.
Proof. unfold drain. rewrite fold_canceled_messages. reflexivity. Qed.

Lemma sendMessage_messages (c : Closure) (rnd : JsString.t) (st : State) :
  messages (sendMessage c rnd st) =
    if not_ (trim (c_input c)) || c_isLoading c
    then messages st
    else setMessagesWithLimit
           (messages st ++ [mkMessage (trim (c_input c)) true
                                      (createMessageId (clock st) rnd)]).
Proof.
  unfold sendMessage, post, cancelPreviousRequest.
  destruct (not_ (trim (c_input c)) || c_isLoading c); [reflexivity|].
  destruct (abortControllerRef st); reflexivity.
Qed.


(** *** A submission the interface admits *)

Lemma not_button_disabled (st : State) :
  button_disabled st = false ->
  isLoading st = false /\ not_ (trim (input st)) = false.
Proof. unfold button_disabled. apply orb_false_iff. Qed.

Lemma Inv_not_loading (st : State) : Inv st -> isLoading st = false -> idle st.
Proof.
  intros HI Hld. destruct (inv_phase st HI) as [H|(r & _ & H & _)];
    [exact H|congruence].
Qed.

Lemma sendMessage_admitted (rnd : JsString.t) (st : State) :
  Inv st -> button_disabled st = false ->
  sendMessage (render st) rnd st = post (userMessage_of rnd st) (enqueued rnd st).
Proof.
  intros HI Hb. apply not_button_disabled in Hb. destruct Hb as [Hld Hnb].
  destruct (Inv_not_loading st HI Hld) as (_ & _ & Href).
  unfold sendMessage, render. simpl. rewrite Hld, Hnb. simpl.
  unfold cancelPreviousRequest. rewrite Href. reflexivity.
Qed.

Lemma step_Submit_admitted (rnd : JsString.t) (st st1 : State) :
  Inv st -> button_disabled st = false ->
  step (Submit rnd) st = Some st1 ->
  st1 = post (userMessage_of rnd st) (enqueued rnd st)
  /\ busy (request_of rnd st) st1.
Proof.
  intros HI Hb Hstep.
  pose proof (step_mounted _ _ _ Hstep) as Hm.
  destruct (not_button_disabled st Hb) as [Hld Hnb].
  pose proof (Inv_not_loading st HI Hld) as Hidle.
  rewrite step_Submit_idle in Hstep by assumption.
  rewrite sendMessage_admitted in Hstep by assumption.
  injection Hstep as <-. split; [reflexivity|].
  destruct Hidle as (Hreq & _ & _).
  unfold busy, post. simpl. rewrite Hreq. simpl. repeat split.
  rewrite map_app. apply in_or_app. right. simpl. auto.
Qed.

(** An activation found in flight after a run is the same activation, and
    the history did not move in between. *)
Lemma still_pending (r r' : Request) (es : list Event) (st1 st2 : State) :
  Inv st1 -> busy r st1 ->
  run es st1 = Some st2 ->
  find_request (r_id r) st2 = Some r' ->
  r' = r /\ busy r st2 /\ messages st2 = messages st1.
Proof.
  intros HI Hb Hrun Hfind.
  pose proof (run_Effect _ _ _ HI Hrun) as E.
  pose proof (run_Inv _ _ _ HI Hrun) as HI2.
  unfold find_request in Hfind. apply find_some in Hfind.
  destruct Hfind as [Hin Hid]. apply Nat.eqb_eq in Hid.
  pose proof (busy_fresh r st1 HI Hb) as Hlt.
  pose proof Hb as (Hreq & _).
  destruct (eff_requests _ _ E r' Hin) as [H|H]; [|lia].
  rewrite Hreq in H. destruct H as [<-|[]].
  split; [reflexivity|]. split.
  - apply Inv_requests; assumption.
  - apply (eff_messages _ _ E r); [rewrite Hreq; left; reflexivity|exact Hin].
Qed.

(* ================================================================= *)
(** ** Sample runs, checked *)

Example toString36_35 : toString36 35 = str "z".
Proof. reflexivity. Qed.

Example toString36_1296 : toString36 1296 = str "100".
Proof. reflexivity. Qed.

Example createMessageId_sample :
  createMessageId 1700000000000 (str "0.4fzyo82mvyr") = str "loyw3v284fzyo82mvyr".
Proof. vm_compute. reflexivity. Qed.

Example waiting_history :
  messages waiting = [mkMessage (str "hi") true (str "0a")].
Proof. reflexivity. Qed.

Example waiting_request : find_request 0 waiting <> None.
Proof. discriminate. Qed.

(* ================================================================= *)
(** ** The cap on the history *)

Example setMessagesWithLimit_drops_oldest :
  let old := mkMessage (str "old") true (str "a") in
  let filler := repeat (mkMessage (str "x") false (str "b")) 4999 in
  let new := mkMessage (str "new") true (str "c") in
  setMessagesWithLimit ((old :: filler) ++ [new]) = filler ++ [new].
Proof. vm_compute. reflexivity. Qed.



(* ================================================================= *)
(** ** Failures *)

Lemma rateLimitText_distinct : rateLimitText <> failureText.
Proof. discriminate. Qed.

Lemma errorText_error_of (f : Failure) :
  errorText (error_of f) =
    match f with
    | BadStatus code => if code =? 429 then rateLimitText else failureText
    | _ => failureText
    end.
Proof. destruct f; reflexivity. Qed.

Lemma error_of_not_canceled (f : Failure) :
  isAxiosError (error_of f) && (name (error_of f) =? "CanceledError")%string = false.
Proof. destruct f; reflexivity. Qed.

(** A call that rejects without having been aborted appends one
    bot-authored entry, in any state: the rate-limit text when the
    response status is 429, the generic failure text otherwise. *)
Lemma rejected_call_message (st st' : State) (n : nat) (f : Failure) (rnd : JsString.t) :
  step (Fail n f rnd) st = Some st' ->
  exists m kept,
    messages st' = setMessagesWithLimit (messages st ++ [m])
    /\ messages st' = kept ++ [m]
    /\ isUser m = false
    /\ (f = BadStatus 429 ->
        text m = str "Rate limit exceeded. Please try again later.")
    /\ (f <> BadStatus 429 -> text m = str "Error: Failed to get response").
Proof.
  intro Hstep. unfold step in Hstep.
  destruct (mounted st); simpl in Hstep; [|discriminate].
  destruct (find_request n st) as [r|]; [|discriminate].
  injection Hstep as <-.
  rewrite drain_messages, resume_messages, error_of_not_canceled.
  change (messages (remove_request n st)) with (messages st).
  change (clock (remove_request n st)) with (clock st).
  set (m := mkMessage (errorText (error_of f)) false (createMessageId (clock st) rnd)).
  destruct (setMessagesWithLimit_snoc (messages st) m) as (d & k & _ & Hk & _).
  exists m, k. split; [reflexivity|]. split; [exact Hk|]. split; [reflexivity|].
  subst m. simpl. rewrite errorText_error_of. split.
  - intros ->. reflexivity.
  - intro Hne. destruct f as [code| |]; try reflexivity.
    destruct (Z.eqb_spec code 429) as [->|]; [congruence|reflexivity].
Qed.

Example failure_429 :
  map text (messages (state_after [Change (str "hi"); Submit (str "0.a");
                                   Fail 0 (BadStatus 429) (str "0.b")]))
  = [str "hi"; str "Rate limit exceeded. Please try again later."].
Proof. reflexivity. Qed.

Example failure_500 :
  map text (messages (state_after [Change (str "hi"); Submit (str "0.a");
                                   Fail 0 (BadStatus 500) (str "0.b")]))
  = [str "hi"; str "Error: Failed to get response"].
Proof. reflexivity. Qed.

Example failure_network :
  map text (messages (state_after [Change (str "hi"); Submit (str "0.a");
                                   Fail 0 NoResponse (str "0.b")]))
  = [str "hi"; str "Error: Failed to get response"].
Proof. reflexivity. Qed.

(* ================================================================= *)
(** ** Blank input *)

(** Whatever the state it runs in, a [sendMessage] whose input is empty
    or white space only returns at its guard. *)
Lemma sendMessage_blank (c : Closure) (rnd : JsString.t) (st : State) :
  blank (c_input c) = true -> sendMessage c rnd st = st.
Proof.
  intro H. unfold sendMessage. rewrite not_trim_blank, H. reflexivity.
Qed.

Lemma drain_Inv (st : State) : Inv st -> drain st = st.
Proof.
  intros HI. destruct (inv_phase st HI) as [(Hreq & _)|(r & Hreq & _ & _ & Hab & _)].
  - apply drain_idle. exact Hreq.
  - eapply drain_one; eauto.
Qed.

(** C6. Submitting an input that is empty or white space only changes
    nothing: the whole state after the macrotask is the state before it,
    so no entry is appended, no call is issued, and history, input and
    loading flag are as they were. *)
Theorem blank_submission_noop (st : State) (rnd : JsString.t) :
  reachable st ->
  mounted st = true ->
  blank (input st) = true ->
  step (Submit rnd) st = Some st
  /\ sendMessage (render st) rnd st = st
  /\ forall st', step (Submit rnd) st = Some st' ->
       messages st' = messages st
       /\ requests st' = requests st
       /\ input st' = input st
       /\ isLoading st' = isLoading st.
Proof.
  intros Hr Hm Hb.
  assert (Hs : sendMessage (render st) rnd st = st)
    by (apply sendMessage_blank; exact Hb).
  assert (Hstep : step (Submit rnd) st = Some st).
  { unfold step. rewrite Hm. simpl. rewrite Hs.
    rewrite drain_Inv by (apply reachable_Inv; exact Hr). reflexivity. }
  split; [exact Hstep|]. split; [exact Hs|].
  intros st' H. rewrite Hstep in H. injection H as <-. auto.
Qed.

Lemma blank_submission_noop_witness :
  step (Submit (str "0.a")) spaces_typed = Some spaces_typed
  /\ sendMessage (render spaces_typed) (str "0.a") spaces_typed = spaces_typed
  /\ forall st', step (Submit (str "0.a")) spaces_typed = Some st' ->
       messages st' = messages spaces_typed
       /\ requests st' = requests spaces_typed
       /\ input st' = input spaces_typed
       /\ isLoading st' = isLoading spaces_typed.
Proof.
  apply (blank_submission_noop spaces_typed (str "0.a")).
  - exists 0, [Change [32; 9; 10; 160; 12288]]. reflexivity.
  - reflexivity.
  - reflexivity.
Defined.

Example empty_submission : step (Submit (str "0.a")) (initialState 0) = Some (initialState 0).
Proof. reflexivity. Qed.

(* ================================================================= *)
(** ** Cancellation *)

Lemma Inv_mounted (r : Request) (st : State) :
  Inv st -> In r (requests st) -> mounted st = true.
Proof.
  intros HI Hin. destruct (mounted st) eqn:Hm; [reflexivity|].
  rewrite (inv_unmounted st HI Hm) in Hin. destruct Hin.
Qed.

(** C7. A call in flight that is cancelled leaves no trace in the
    history.  The cancellation error takes the [return] of the [catch]
    block; aborting the controller of the call, as the timer callback and
    the unmount cleanup do, ends the macrotask with the call gone and the
    history as it was. *)
Theorem cancellation_silent (st : State) (r : Request) :
  reachable st ->
  In r (requests st) ->
  (forall rnd s, messages (resume r (Rejected canceledError) rnd s) = messages s)
  /\ messages (drain (abort (r_id r) st)) = messages st
  /\ find_request (r_id r) (drain (abort (r_id r) st)) = None
  /\ (forall n st', step (Timeout n) st = Some st' ->
        messages st' = messages st /\ find_request (r_id r) st' = None)
  /\ (forall st', step Unmount st = Some st' ->
        messages st' = messages st /\ find_request (r_id r) st' = None).
Proof.
  intros Hr Hin.
  pose proof (reachable_Inv st Hr) as HI.
  pose proof (Inv_requests r st HI Hin) as Hb.
  pose proof (Inv_mounted r st HI Hin) as Hm.
  pose proof Hb as (Hreq & _).
  split; [reflexivity|].
  rewrite (drain_abort_busy r st Hreq).
  split; [reflexivity|]. split; [reflexivity|]. split.
  - intros n st' Hstep.
    rewrite (step_Timeout_busy n r) in Hstep by assumption.
    destruct (timer_due n st); [|discriminate]. injection Hstep as <-.
    split; reflexivity.
  - intros st' Hstep.
    rewrite (step_Unmount_busy r) in Hstep by assumption.
    injection Hstep as <-. split; reflexivity.
Qed.

Lemma cancellation_silent_witness :
  (forall rnd s,
      messages (resume (request_of (str "0.a") typed) (Rejected canceledError) rnd s)
      = messages s)
  /\ messages (drain (abort 0 waiting)) = messages waiting
  /\ find_request 0 (drain (abort 0 waiting)) = None
  /\ (forall n st', step (Timeout n) waiting = Some st' ->
        messages st' = messages waiting /\ find_request 0 st' = None)
  /\ (forall st', step Unmount waiting = Some st' ->
        messages st' = messages waiting /\ find_request 0 st' = None).
Proof.
  apply (cancellation_silent waiting (request_of (str "0.a") typed)).
  - exists 0, [Change (str "hi"); Submit (str "0.a")]. reflexivity.
  - left. reflexivity.
Defined.

Example unmount_while_waiting :
  option_map messages (step Unmount waiting) = Some (messages waiting).
Proof. reflexivity. Qed.

(* ================================================================= *)
(** ** Failures, path by path *)

(** C5, as stated, fails: the call for "again" fails by running into
    its 30 second timer, and neither the rate-limit text nor the generic
    failure text is appended for it.  The history ends with the user
    message, as it did before the timer fired; the only failure text in
    it belongs to the earlier call, rejected with status 429. *)
Lemma timed_out_call_gets_no_text :
  requests unanswered
    = [mkRequest 1 (mkMessage (str "again") true (str "nx4c")) false]
  /\ timers unanswered = [(1%nat, 61000)]
  /\ clock unanswered = 61000
  /\ option_map (fun st => map text (messages st)) (step (Timeout 1) unanswered)
     = Some [str "hi"; str "Rate limit exceeded. Please try again later.";
             str "again"]
  /\ option_map requests (step (Timeout 1) unanswered) = Some [].
Proof. repeat split. Qed.

(** C5, amended.  With a call in flight: when the call is rejected, one
    bot-authored entry is appended, with the rate-limit text if the
    response status is 429 and the generic failure text for every other
    rejection; a reply whose content cannot be read gets the generic
    failure text as well.  A call that is cancelled, which is how a
    timed-out call ends, gets no entry at all. *)
Theorem failure_message_unless_cancelled (st : State) (r : Request) :
  reachable st ->
  In r (requests st) ->
  (forall f rnd,
      exists st' m kept,
        step (Fail (r_id r) f rnd) st = Some st'
        /\ messages st' = setMessagesWithLimit (messages st ++ [m])
        /\ messages st' = kept ++ [m]
        /\ isUser m = false
        /\ (f = BadStatus 429 ->
            text m = str "Rate limit exceeded. Please try again later.")
        /\ (f <> BadStatus 429 -> text m = str "Error: Failed to get response"))
  /\ (forall response rnd,
        content_of response = None ->
        exists st' m kept,
          step (Respond (r_id r) response rnd) st = Some st'
          /\ messages st' = setMessagesWithLimit (messages st ++ [m])
          /\ messages st' = kept ++ [m]
          /\ isUser m = false
          /\ text m = str "Error: Failed to get response")
  /\ (forall n st',
        step (Timeout n) st = Some st' ->
        messages st' = messages st
        /\ find_request (r_id r) st' = None
        /\ isLoading st' = false).
Proof.
  intros Hr Hin.
  pose proof (reachable_Inv st Hr) as HI.
  pose proof (Inv_requests r st HI Hin) as Hb.
  pose proof (Inv_mounted r st HI Hin) as Hm.
  split; [|split].
  - intros f rnd.
    destruct (step (Fail (r_id r) f rnd) st) as [st'|] eqn:Hstep.
    + destruct (rejected_call_message st st' (r_id r) f rnd Hstep)
        as (m & kept & H).
      exists st', m, kept. split; [reflexivity|exact H].
    + rewrite (step_Fail_busy _ f rnd r) in Hstep by assumption.
      rewrite Nat.eqb_refl in Hstep. discriminate.
  - intros response rnd Hnone.
    rewrite (step_Respond_busy _ response rnd r) by assumption.
    rewrite Nat.eqb_refl.
    set (m := mkMessage failureText false (createMessageId (clock st) rnd)).
    destruct (setMessagesWithLimit_snoc (messages st) m) as (d & k & _ & Hk & _).
    exists (resume r (Fulfilled response) rnd (set_requests [] st)), m, k.
    split; [reflexivity|].
    rewrite resume_messages, Hnone.
    split; [reflexivity|]. split; [exact Hk|]. split; reflexivity.
  - intros n st' Hstep.
    rewrite (step_Timeout_busy n r) in Hstep by assumption.
    destruct (timer_due n st); [|discriminate]. injection Hstep as <-.
    repeat split.
Qed.

Lemma failure_message_unless_cancelled_witness :
  (forall f rnd,
      exists st' m kept,
        step (Fail 1 f rnd) unanswered = Some st'
        /\ messages st' = setMessagesWithLimit (messages unanswered ++ [m])
        /\ messages st' = kept ++ [m]
        /\ isUser m = false
        /\ (f = BadStatus 429 ->
            text m = str "Rate limit exceeded. Please try again later.")
        /\ (f <> BadStatus 429 -> text m = str "Error: Failed to get response"))
  /\ (forall response rnd,
        content_of response = None ->
        exists st' m kept,
          step (Respond 1 response rnd) unanswered = Some st'
          /\ messages st' = setMessagesWithLimit (messages unanswered ++ [m])
          /\ messages st' = kept ++ [m]
          /\ isUser m = false
          /\ text m = str "Error: Failed to get response")
  /\ (forall n st',
        step (Timeout n) unanswered = Some st' ->
        messages st' = messages unanswered
        /\ find_request 1 st' = None
        /\ isLoading st' = false).
Proof.
  apply (failure_message_unless_cancelled unanswered
           (mkRequest 1 (mkMessage (str "again") true (str "nx4c")) false)).
  - exists 0, [Change (str "hi"); Submit (str "0.a");
               Fail 0 (BadStatus 429) (str "0.b");
               Tick 31000; Timeout 0;
               Change (str "again"); Submit (str "0.c"); Tick 30000].
    reflexivity.
  - left. reflexivity.
Defined.

(* ================================================================= *)
(** ** A submission and its reply *)

Lemma step_settles (e : Event) (n : nat) (st st' : State) :
  step e st = Some st' ->
  match e with
  | Respond m _ _ | Fail m _ _ => m = n
  | _ => False
  end ->
  exists r, find_request n st = Some r.
Proof.
  intros Hstep He. unfold step in Hstep.
  destruct (mounted st); simpl in Hstep; [|discriminate].
  destruct e; try contradiction; subst;
    (destruct (find_request n st) as [r|]; [eauto|discriminate]).
Qed.

(** C4. A submission of a non-blank input that the interface admits,
    followed by the arrival of the reply to its call, leaves the history
    extended by the user message and then the bot message carrying
    [response.data.choices[0].message.content], with nothing in between;
    before them stands the old history, less the oldest entries when the
    cap is reached. *)
Theorem success_appends_pair
    (st st1 st2 st3 : State) (es : list Event) (rnd rnd' : JsString.t)
    (response : AxiosResponse) (reply : JsString.t) :
  reachable st ->
  button_disabled st = false ->
  step (Submit rnd) st = Some st1 ->
  run es st1 = Some st2 ->
  step (Respond (next_id st) response rnd') st2 = Some st3 ->
  content_of response = Some reply ->
  let u := mkMessage (trim (input st)) true (createMessageId (clock st) rnd) in
  let b := mkMessage reply false (createMessageId (clock st2) rnd') in
  messages st3
    = setMessagesWithLimit (setMessagesWithLimit (messages st ++ [u]) ++ [b])
  /\ exists dropped kept,
       messages st = dropped ++ kept
       /\ messages st3 = kept ++ [u; b]
       /\ (Z.of_nat (length (messages st)) + 2 <= MAX_MESSAGES -> dropped = []).
Proof.
  intros Hr Hb Hsub Hrun Hresp Hreply u b.
  pose proof (reachable_Inv st Hr) as HI.
  destruct (step_Submit_admitted rnd st st1 HI Hb Hsub) as [Hst1 Hbusy].
  pose proof (step_Inv _ _ _ HI Hsub) as HI1.
  destruct (step_settles _ (next_id st) _ _ Hresp eq_refl) as (r' & Hfind).
  destruct (still_pending (request_of rnd st) r' es st1 st2 HI1 Hbusy Hrun Hfind)
    as (-> & Hbusy2 & Hmsg).
  rewrite (step_Respond_busy _ response rnd' (request_of rnd st)) in Hresp;
    [|eapply step_mounted; eauto|exact Hbusy2].
  simpl in Hresp. rewrite Nat.eqb_refl in Hresp. injection Hresp as <-.
  rewrite resume_messages, Hreply.
  change (messages (set_requests [] st2)) with (messages st2).
  change (clock (set_requests [] st2)) with (clock st2).
  rewrite Hmsg, Hst1.
  change (messages (post (userMessage_of rnd st) (enqueued rnd st)))
    with (setMessagesWithLimit (messages st ++ [u])).
  change (botMessage_of reply rnd' st2) with b.
  split; [reflexivity|].
  destruct (setMessagesWithLimit_snoc (messages st) u) as (d1 & k1 & H1 & H2 & H3).
  pose proof (setMessagesWithLimit_length (messages st ++ [u])) as Hcap.
  rewrite H2 in Hcap |- *.
  destruct (setMessagesWithLimit_snoc2 k1 u b Hcap) as (d2 & k2 & H4 & H5 & H6).
  exists (d1 ++ d2), k2. split; [|split].
  - rewrite H1, H4. apply app_assoc.
  - exact H5.
  - intro Hlen. assert (Hd1 : d1 = []) by (apply H3; lia).
    subst d1. simpl in H1. subst k1.
    rewrite H6; [reflexivity|]. rewrite length_app. simpl. lia.
Qed.

Example replied_history :
  messages replied
  = [mkMessage (str "hi") true (str "0a"); mkMessage (str "hello") false (str "xcb")].
Proof. reflexivity. Qed.

Lemma success_appends_pair_witness :
  let u := mkMessage (trim (input typed)) true (createMessageId (clock typed) (str "0.a")) in
  let b := mkMessage (str "hello") false (createMessageId 1200 (str "0.b")) in
  messages replied
    = setMessagesWithLimit (setMessagesWithLimit (messages typed ++ [u]) ++ [b])
  /\ exists dropped kept,
       messages typed = dropped ++ kept
       /\ messages replied = kept ++ [u; b]
       /\ (Z.of_nat (length (messages typed)) + 2 <= MAX_MESSAGES -> dropped = []).
Proof.
  apply (success_appends_pair typed waiting
           (state_after [Change (str "hi"); Submit (str "0.a"); Tick 1200])
           replied [Tick 1200] (str "0.a") (str "0.b") sample_reply (str "hello")).
  - exists 0, [Change (str "hi")]. reflexivity.
  - reflexivity.
  - reflexivity.
  - reflexivity.
  - reflexivity.
  - reflexivity.
Defined.



(* ================================================================= *)
(** ** A submission while a call is in flight *)

(** C1, as stated, fails: with the call for "hi" in flight and a non-blank
    input, a second submission leaves the state as it is.  The first call
    is neither aborted nor removed, no call is issued for "again", and the
    reply that then arrives for the first call is appended. *)
Lemma resubmit_not_cancelling :
  requests retyped = [mkRequest 0 (mkMessage (str "hi") true (str "0a")) false]
  /\ trim (input retyped) = str "again"
  /\ step (Submit (str "0.b")) retyped = Some retyped
  /\ option_map messages
       (run [Submit (str "0.b"); Respond 0 sample_reply (str "0.c")] retyped)
     = Some [mkMessage (str "hi") true (str "0a");
             mkMessage (str "hello") false (str "0c")].
Proof. repeat split. Qed.

(** C1, amended.  While a call is in flight the loading flag is up, both
    controls are disabled, and a submission returns at the guard of
    [sendMessage]: the state is unchanged, so the call in flight is not
    cancelled and nothing is appended for the new submission.  The reply
    or the failure of the call in flight is appended when it arrives. *)
Theorem submission_while_pending_ignored (st : State) (r : Request) (rnd : JsString.t) :
  reachable st ->
  In r (requests st) ->
  isLoading st = true
  /\ textarea_disabled st = true
  /\ button_disabled st = true
  /\ step (Submit rnd) st = Some st
  /\ (forall response reply rnd',
        content_of response = Some reply ->
        exists st',
          step (Respond (r_id r) response rnd') st = Some st'
          /\ messages st'
             = setMessagesWithLimit
                 (messages st ++ [mkMessage reply false (createMessageId (clock st) rnd')]))
  /\ (forall f rnd',
        exists st',
          step (Fail (r_id r) f rnd') st = Some st'
          /\ messages st'
             = setMessagesWithLimit
                 (messages st ++ [mkMessage (errorText (error_of f)) false
                                            (createMessageId (clock st) rnd')])).
Proof.
  intros Hr Hin.
  pose proof (reachable_Inv st Hr) as HI.
  pose proof (Inv_requests r st HI Hin) as Hb.
  pose proof (Inv_mounted r st HI Hin) as Hm.
  pose proof Hb as (Hreq & Hld & _).
  split; [exact Hld|]. split; [exact Hld|].
  split; [unfold button_disabled; rewrite Hld; reflexivity|].
  split; [apply (step_Submit_busy rnd r); assumption|]. split.
  - intros response reply rnd' Hreply.
    rewrite (step_Respond_busy _ response rnd' r) by assumption.
    rewrite Nat.eqb_refl. eexists. split; [reflexivity|].
    rewrite resume_messages, Hreply. reflexivity.
  - intros f rnd'.
    rewrite (step_Fail_busy _ f rnd' r) by assumption.
    rewrite Nat.eqb_refl. eexists. split; [reflexivity|].
    rewrite resume_messages, error_of_not_canceled. reflexivity.
Qed.

Lemma submission_while_pending_ignored_witness :
  isLoading retyped = true
  /\ textarea_disabled retyped = true
  /\ button_disabled retyped = true
  /\ step (Submit (str "0.b")) retyped = Some retyped
  /\ (forall response reply rnd',
        content_of response = Some reply ->
        exists st',
          step (Respond 0 response rnd') retyped = Some st'
          /\ messages st'
             = setMessagesWithLimit
                 (messages retyped
                    ++ [mkMessage reply false (createMessageId (clock retyped) rnd')]))
  /\ (forall f rnd',
        exists st',
          step (Fail 0 f rnd') retyped = Some st'
          /\ messages st'
             = setMessagesWithLimit
                 (messages retyped
                    ++ [mkMessage (errorText (error_of f)) false
                                  (createMessageId (clock retyped) rnd')])).
Proof.
  apply (submission_while_pending_ignored retyped
           (mkRequest 0 (mkMessage (str "hi") true (str "0a")) false) (str "0.b")).
  - exists 0, [Change (str "hi"); Submit (str "0.a"); Change (str "again")].
    reflexivity.
  - left. reflexivity.
Defined.

(** X9. No submission that passes the guard finds a controller in the
    ref: in a session [cancelPreviousRequest] never has anything to
    abort. *)
Lemma cancelPreviousRequest_idle (st : State) :
  reachable st -> isLoading st = false -> cancelPreviousRequest st = st.
Proof.
  intros Hr Hld.
  destruct (Inv_not_loading st (reachable_Inv st Hr) Hld) as (_ & _ & Href).
  unfold cancelPreviousRequest. rewrite Href. reflexivity.
Qed.

(** X10. What [cancelPreviousRequest] is there for: a [sendMessage] whose
    closure still holds [isLoading = false] while a call is in flight
    aborts that call.  The cancelled activation then runs its [finally],
    which lowers the flag and empties the ref of the call just issued. *)
Lemma stale_closure_cancels (st : State) (r : Request) (c : Closure) (rnd : JsString.t) :
  busy r st ->
  c_isLoading c = false ->
  not_ (trim (c_input c)) = false ->
  let u := mkMessage (trim (c_input c)) true (createMessageId (clock st) rnd) in
  let st' := drain (sendMessage c rnd st) in
  requests st' = [mkRequest (next_id st) u false]
  /\ messages st' = setMessagesWithLimit (messages st ++ [u])
  /\ isLoading st' = false
  /\ abortControllerRef st' = None.
Proof.
  intros (Hreq & Hld & Href & Hab & _) Hc Hnb u st'. subst st' u.
  unfold sendMessage. rewrite Hc, Hnb. simpl.
  unfold cancelPreviousRequest. rewrite Href.
  unfold drain, post, abort. simpl. rewrite Hreq. simpl.
  rewrite Nat.eqb_refl. simpl. repeat split.
Qed.

(* ================================================================= *)
(** ** The 30 second timer *)

(** The timer of a call in flight is the one armed when the call was
    issued: due 30000 ms after the submission. *)
Lemma timer_of_pending (st st1 st2 : State) (es : list Event) (rnd : JsString.t) :
  reachable st ->
  button_disabled st = false ->
  step (Submit rnd) st = Some st1 ->
  run es st1 = Some st2 ->
  find_request (next_id st) st2 <> None ->
  busy (request_of rnd st) st2
  /\ messages st2 = messages st1
  /\ In (next_id st, clock st + 30000) (timers st2)
  /\ forall d, In (next_id st, d) (timers st2) -> d = clock st + 30000.
Proof.
  intros Hr Hb Hsub Hrun Hpend.
  pose proof (reachable_Inv st Hr) as HI.
  destruct (step_Submit_admitted rnd st st1 HI Hb Hsub) as [Hst1 Hbusy].
  pose proof (step_Inv _ _ _ HI Hsub) as HI1.
  destruct (find_request (next_id st) st2) as [r'|] eqn:Hfind; [|congruence].
  destruct (still_pending (request_of rnd st) r' es st1 st2 HI1 Hbusy Hrun Hfind)
    as (_ & Hbusy2 & Hmsg).
  assert (Hone : forall d, In (next_id st, d) (timers st2) -> d = clock st + 30000).
  { intros d Hin.
    destruct (eff_timers _ _ (run_Effect _ _ _ HI1 Hrun) _ Hin) as [H|H].
    - rewrite Hst1 in H. unfold post in H. simpl in H.
      apply in_app_or in H. destruct H as [H|[H|[]]].
      + apply (in_map fst) in H. apply (inv_fresh st HI) in H. simpl in H. lia.
      + congruence.
    - rewrite Hst1 in H. simpl in H. lia. }
  split; [exact Hbusy2|]. split; [exact Hmsg|]. split; [|exact Hone].
  destruct Hbusy2 as (_ & _ & _ & _ & Htm). simpl in Htm.
  apply in_map_iff in Htm. destruct Htm as ([n d] & Hn & Hin).
  simpl in Hn. subst n. rewrite <- (Hone d Hin). exact Hin.
Qed.

(** C2, as stated, fails: the call for "hi" is still in flight when its
    timer fires 30000 ms after the submission.  The call is aborted, but
    the history holds the user message alone: no failure message, and no
    bot message at all.  Nothing is left in flight and no timer is left
    armed, so no later macrotask supplies one. *)
Lemma timeout_without_message :
  run [Change (str "hi"); Submit (str "0.a"); Tick 30000; Timeout 0] (initialState 0)
    = Some timed_out
  /\ messages timed_out = [mkMessage (str "hi") true (str "0a")]
  /\ existsb (fun m => negb (isUser m)) (messages timed_out) = false
  /\ requests timed_out = []
  /\ timers timed_out = [].
Proof. repeat split. Qed.

(** C2, amended.  The timer of a submitted call is due exactly 30000 ms
    after the submission and stays armed while the call is in flight.
    When it fires, the call is aborted and leaves through the
    cancellation branch: nothing is appended to the history, the loading
    flag returns to false and the ref is emptied, so the interaction
    resolves, without a message. *)
Theorem timeout_aborts_silently
    (st st1 st2 : State) (es : list Event) (rnd : JsString.t) :
  reachable st ->
  button_disabled st = false ->
  step (Submit rnd) st = Some st1 ->
  run es st1 = Some st2 ->
  find_request (next_id st) st2 <> None ->
  timer_due (next_id st) st2 = (clock st + 30000 <=? clock st2)
  /\ (clock st + 30000 <= clock st2 ->
      exists st3, step (Timeout (next_id st)) st2 = Some st3)
  /\ forall st3,
       step (Timeout (next_id st)) st2 = Some st3 ->
       clock st + 30000 <= clock st2
       /\ find_request (next_id st) st3 = None
       /\ requests st3 = []
       /\ messages st3 = messages st2
       /\ isLoading st3 = false
       /\ abortControllerRef st3 = None
       /\ textarea_disabled st3 = false.
Proof.
  intros Hr Hb Hsub Hrun Hpend.
  destruct (timer_of_pending st st1 st2 es rnd Hr Hb Hsub Hrun Hpend)
    as (Hbusy & _ & Hin & Hone).
  assert (Hm : mounted st2 = true).
  { apply (Inv_mounted (request_of rnd st)).
    - eapply run_Inv; [|exact Hrun].
      eapply step_Inv; [apply reachable_Inv|]; eauto.
    - destruct Hbusy as (Hreq & _). rewrite Hreq. left. reflexivity. }
  assert (Hdue : timer_due (next_id st) st2 = (clock st + 30000 <=? clock st2)).
  { destruct (Z.leb_spec (clock st + 30000) (clock st2)) as [Hle|Hlt].
    - unfold timer_due. apply existsb_exists.
      exists (next_id st, clock st + 30000). split; [exact Hin|]. simpl.
      rewrite Nat.eqb_refl. apply Z.leb_le. exact Hle.
    - destruct (timer_due (next_id st) st2) eqn:E; [|reflexivity].
      apply timer_due_In in E. destruct E as (d & Hd & Hle).
      apply Hone in Hd. lia. }
  split; [exact Hdue|].
  rewrite (step_Timeout_busy _ (request_of rnd st)) by assumption.
  rewrite Hdue. split.
  - intro Hle. apply Z.leb_le in Hle. rewrite Hle. eauto.
  - intros st3 Hstep.
    destruct (Z.leb_spec (clock st + 30000) (clock st2)) as [Hle|Hlt];
      [|discriminate].
    injection Hstep as <-. repeat split. exact Hle.
Qed.

Lemma timeout_aborts_silently_witness :
  timer_due (next_id typed) overdue = (clock typed + 30000 <=? clock overdue)
  /\ (clock typed + 30000 <= clock overdue ->
      exists st3, step (Timeout (next_id typed)) overdue = Some st3)
  /\ forall st3,
       step (Timeout (next_id typed)) overdue = Some st3 ->
       clock typed + 30000 <= clock overdue
       /\ find_request (next_id typed) st3 = None
       /\ requests st3 = []
       /\ messages st3 = messages overdue
       /\ isLoading st3 = false
       /\ abortControllerRef st3 = None
       /\ textarea_disabled st3 = false.
Proof.
  apply (timeout_aborts_silently typed waiting overdue [Tick 30000] (str "0.a")).
  - exists 0, [Change (str "hi")]. reflexivity.
  - reflexivity.
  - reflexivity.
  - reflexivity.
  - discriminate.
Defined.

(** The failure path does not clear the timer (only line 102 does, on the
    success path), and the timer callback aborts whatever the ref holds:
    the timer of a failed call, still armed, cancels a later call when it
    fires, here one second after that call was issued. *)
Example leftover_timer :
  requests second_call = [mkRequest 1 (mkMessage (str "again") true (str "mdkc")) false]
  /\ timers second_call = [(0%nat, 30000); (1%nat, 59000)]
  /\ option_map requests (step (Timeout 0) second_call) = Some []
  /\ option_map messages (step (Timeout 0) second_call) = Some (messages second_call).
Proof. repeat split. Qed.

(* ================================================================= *)
(** ** Every way out of a failed call *)

(** C8, as stated, fails: the call for "more" ends on the failure path of
    the timer, and that path appends no entry.  The history after it is
    the history before it; only the loading flag comes back. *)
Lemma timeout_path_without_entry :
  requests stalled = [mkRequest 1 (mkMessage (str "more") true (str "3uwc")) false]
  /\ isLoading stalled = true
  /\ option_map messages (step (Timeout 1) stalled) = Some (messages stalled)
  /\ option_map requests (step (Timeout 1) stalled) = Some []
  /\ option_map isLoading (step (Timeout 1) stalled) = Some false
  /\ map text (messages stalled) = [str "hi"; str "hello"; str "more"].
Proof. repeat split. Qed.

(** C8, amended.  With a call in flight, a failure of the call, or a reply
    whose content cannot be read, appends exactly one bot-authored entry;
    a cancellation (the timer firing) appends nothing.  Each of these
    paths ends with no call in flight, the loading flag false and the
    input field enabled; the send button is then disabled only by a
    blank input. *)
Theorem failure_paths_resolve (st : State) (r : Request) :
  reachable st ->
  In r (requests st) ->
  (forall f rnd,
      exists st' m,
        step (Fail (r_id r) f rnd) st = Some st'
        /\ messages st' = setMessagesWithLimit (messages st ++ [m])
        /\ isUser m = false
        /\ requests st' = []
        /\ isLoading st' = false
        /\ textarea_disabled st' = false
        /\ button_disabled st' = not_ (trim (input st)))
  /\ (forall response rnd,
        content_of response = None ->
        exists st' m,
          step (Respond (r_id r) response rnd) st = Some st'
          /\ messages st' = setMessagesWithLimit (messages st ++ [m])
          /\ isUser m = false
          /\ text m = failureText
          /\ requests st' = []
          /\ isLoading st' = false
          /\ textarea_disabled st' = false
          /\ button_disabled st' = not_ (trim (input st)))
  /\ (forall n st',
        step (Timeout n) st = Some st' ->
        messages st' = messages st
        /\ requests st' = []
        /\ isLoading st' = false
        /\ textarea_disabled st' = false
        /\ button_disabled st' = not_ (trim (input st))).
Proof.
  intros Hr Hin.
  pose proof (reachable_Inv st Hr) as HI.
  pose proof (Inv_requests r st HI Hin) as Hb.
  pose proof (Inv_mounted r st HI Hin) as Hm.
  split; [|split].
  - intros f rnd.
    rewrite (step_Fail_busy _ f rnd r) by assumption. rewrite Nat.eqb_refl.
    eexists. eexists. split; [reflexivity|].
    rewrite resume_messages, error_of_not_canceled.
    split; [reflexivity|]. split; [reflexivity|].
    unfold resume, catch_. rewrite error_of_not_canceled. repeat split.
  - intros response rnd Hnone.
    rewrite (step_Respond_busy _ response rnd r) by assumption.
    rewrite Nat.eqb_refl.
    eexists. eexists. split; [reflexivity|].
    rewrite resume_messages, Hnone.
    split; [reflexivity|]. split; [reflexivity|]. split; [reflexivity|].
    unfold resume. rewrite Hnone. repeat split.
  - intros n st' Hstep.
    rewrite (step_Timeout_busy n r) in Hstep by assumption.
    destruct (timer_due n st); [|discriminate]. injection Hstep as <-.
    repeat split.
Qed.

Lemma failure_paths_resolve_witness :
  (forall f rnd,
      exists st' m,
        step (Fail 1 f rnd) stalled = Some st'
        /\ messages st' = setMessagesWithLimit (messages stalled ++ [m])
        /\ isUser m = false
        /\ requests st' = []
        /\ isLoading st' = false
        /\ textarea_disabled st' = false
        /\ button_disabled st' = not_ (trim (input stalled)))
  /\ (forall response rnd,
        content_of response = None ->
        exists st' m,
          step (Respond 1 response rnd) stalled = Some st'
          /\ messages st' = setMessagesWithLimit (messages stalled ++ [m])
          /\ isUser m = false
          /\ text m = failureText
          /\ requests st' = []
          /\ isLoading st' = false
          /\ textarea_disabled st' = false
          /\ button_disabled st' = not_ (trim (input stalled)))
  /\ (forall n st',
        step (Timeout n) stalled = Some st' ->
        messages st' = messages stalled
        /\ requests st' = []
        /\ isLoading st' = false
        /\ textarea_disabled st' = false
        /\ button_disabled st' = not_ (trim (input stalled))).
Proof.
  apply (failure_paths_resolve stalled
           (mkRequest 1 (mkMessage (str "more") true (str "3uwc")) false)).
  - exists 0, [Change (str "hi"); Submit (str "0.a");
               Respond 0 sample_reply (str "0.b");
               Change (str "more"); Tick 5000; Submit (str "0.c");
               Tick 45000].
    reflexivity.
  - left. reflexivity.
Defined.

Example malformed_reply :
  map text (messages (state_after [Change (str "hi"); Submit (str "0.a");
                                   Respond 0 (mkResponse 200 (mkData [])) (str "0.b")]))
  = [str "hi"; str "Error: Failed to get response"].
Proof. reflexivity. Qed.

(* ================================================================= *)
(** ** Ids *)

Lemma undigit36_digit36 (d : Z) : 0 <= d < 36 -> undigit36 (digit36 d) = d.
Proof.
  intro H. unfold undigit36, digit36.
  destruct (Z.ltb_spec d 10).
  - destruct (Z.ltb_spec (48 + d) 58); lia.
  - destruct (Z.ltb_spec (97 + (d - 10)) 58); lia.
Qed.

(** [digits36] puts the digits of [n] in front of [acc]. *)
Lemma parse36_digits36 (fuel : nat) (n : Z) (acc : JsString.t) :
  0 <= n < 2 ^ Z.of_nat fuel ->
  parse36 (digits36 fuel n acc) = n * 36 ^ Z.of_nat (length acc) + parse36 acc.
Proof.
  revert n acc. induction fuel as [|fuel IH]; intros n acc Hn.
  - simpl in *. assert (n = 0) by lia. subst. reflexivity.
  - rewrite Nat2Z.inj_succ, Z.pow_succ_r in Hn by lia.
    cbn [digits36].
    pose proof (Z.mod_pos_bound n 36 ltac:(lia)) as Hm.
    pose proof (Z.div_mod n 36 ltac:(lia)) as Hdm.
    destruct (Z.eqb_spec (n / 36) 0) as [Hz|Hnz].
    + cbn [parse36]. rewrite undigit36_digit36 by exact Hm.
      replace (n mod 36) with n by lia. reflexivity.
    + rewrite IH.
      * cbn [parse36 length]. rewrite undigit36_digit36 by exact Hm.
        rewrite Nat2Z.inj_succ, Z.pow_succ_r by lia.
        rewrite Hdm at 3. ring.
      * split; [apply Z.div_pos; lia|].
        apply Z.div_lt_upper_bound; lia.
Qed.

Lemma toString36_fuel (n : Z) :
  0 <= n -> n < 2 ^ Z.of_nat (S (Z.to_nat (Z.log2 n))).
Proof.
  intro Hn. rewrite Nat2Z.inj_succ, Z2Nat.id by apply Z.log2_nonneg.
  destruct (Z.eq_dec n 0) as [->|Hnz].
  - reflexivity.
  - apply Z.log2_spec. lia.
Qed.

Lemma parse36_round_trip (n : Z) :
  0 <= n -> parse36 (toString36 n) = n.
Proof.
  intro Hn. unfold toString36.
  destruct (Z.ltb_spec n 0); [lia|].
  rewrite parse36_digits36.
  - simpl. ring.
  - split; [exact Hn|apply toString36_fuel; exact Hn].
Qed.

(** X1. The timestamp part of an id can be read back: parsing the
    base-36 rendering of a clock reading returns the reading, so
    [toString(36)] loses nothing of [Date.now()]. *)
Theorem parse36_toString36 (n : Z) :
  0 <= n -> parse36 (toString36 n) = n.
Proof.
  intro Hn. unfold toString36.
  destruct (Z.ltb_spec n 0) as [Hneg|_]; [lia|].
  rewrite parse36_digits36.
  - simpl. ring.
  - split; [exact Hn|apply toString36_fuel; exact Hn].
Qed.

Lemma parse36_toString36_witness : parse36 (toString36 1700000000000) = 1700000000000.
Proof. apply (parse36_toString36 1700000000000). lia. Defined.

(** The number of digits: [k] when [36^(k-1) <= n < 36^k]. *)
Lemma digits36_length (fuel : nat) (n : Z) (acc : JsString.t) (k : nat) :
  0 <= n < 2 ^ Z.of_nat fuel ->
  36 ^ Z.of_nat k <= n < 36 ^ Z.of_nat (S k) ->
  length (digits36 fuel n acc) = (S k + length acc)%nat.
Proof.
  revert n acc k. induction fuel as [|fuel IH]; intros n acc k Hn Hk.
  - simpl in Hn. pose proof (Z.pow_pos_nonneg 36 (Z.of_nat k)). lia.
  - rewrite Nat2Z.inj_succ, Z.pow_succ_r in Hn by lia.
    rewrite Nat2Z.inj_succ, Z.pow_succ_r in Hk by lia.
    cbn [digits36].
    pose proof (Z.div_mod n 36 ltac:(lia)) as Hdm.
    pose proof (Z.mod_pos_bound n 36 ltac:(lia)) as Hm.
    destruct (Z.eqb_spec (n / 36) 0) as [Hz|Hnz].
    + destruct k as [|k]; [reflexivity|].
      rewrite Nat2Z.inj_succ, Z.pow_succ_r in Hk by lia.
      pose proof (Z.pow_pos_nonneg 36 (Z.of_nat k)). lia.
    + destruct k as [|k].
      * simpl in Hk. assert (n / 36 = 0) by (apply Z.div_small; lia). lia.
      * rewrite (IH (n / 36) _ k).
        -- simpl. lia.
        -- split; [apply Z.div_pos; lia|].
           apply Z.div_lt_upper_bound; lia.
        -- rewrite Nat2Z.inj_succ, Z.pow_succ_r in Hk |- * by lia.
           split.
           ++ apply Z.div_le_lower_bound; lia.
           ++ apply Z.div_lt_upper_bound; lia.
Qed.

Lemma toString36_length (n : Z) (k : nat) :
  36 ^ Z.of_nat k <= n < 36 ^ Z.of_nat (S k) ->
  length (toString36 n) = S k.
Proof.
  intro Hk. pose proof (Z.pow_pos_nonneg 36 (Z.of_nat k)) as Hp.
  unfold toString36. destruct (Z.ltb_spec n 0); [lia|].
  rewrite (digits36_length _ n [] k).
  - simpl. lia.
  - split; [lia|apply toString36_fuel; lia].
  - exact Hk.
Qed.

(** X2. For clock readings with eight base-36 digits (from 36^7 ms, in
    June 1972, to 36^8 ms, in May 2059) two ids are equal only when they
    were made in the same millisecond from the same random digits: ids
    made in different milliseconds differ whatever [Math.random] returns. *)
Theorem createMessageId_injective (now1 now2 : Z) (r1 r2 : JsString.t) :
  78364164096 <= now1 < 2821109907456 ->
  78364164096 <= now2 < 2821109907456 ->
  createMessageId now1 r1 = createMessageId now2 r2 ->
  now1 = now2 /\ substr 2 r1 = substr 2 r2.
Proof.
  intros H1 H2 Heq. unfold createMessageId in Heq.
  apply app_eq_length in Heq.
  - destruct Heq as [Ht Hs]. split; [|exact Hs].
    rewrite <- (parse36_round_trip now1), <- (parse36_round_trip now2) by lia.
    rewrite Ht. reflexivity.
  - rewrite (toString36_length now1 7), (toString36_length now2 7);
      [reflexivity| |]; simpl; lia.
Qed.

Lemma createMessageId_injective_witness :
  1700000000000 = 1700000000000 /\ substr 2 (str "0.4fzyo") = substr 2 (str "0.4fzyo").
Proof.
  apply (createMessageId_injective 1700000000000 1700000000000
           (str "0.4fzyo") (str "0.4fzyo")).
  - lia.
  - lia.
  - reflexivity.
Defined.

Example createMessageId_next_millisecond :
  createMessageId 1700000000000 (str "0.4fzyo")
  <> createMessageId 1700000000001 (str "0.4fzyo").
Proof. discriminate. Qed.

(* ================================================================= *)
(** ** One call at a time *)

(** X3. In a session at most one call is in flight, and the loading flag
    and the ref tell exactly whether one is: the flag is up and the ref
    holds a controller if and only if a call is in flight, and the ref
    then holds the controller of that call, whose signal is not aborted. *)
Theorem one_call_in_flight (st : State) :
  reachable st ->
  (length (requests st) <= 1)%nat
  /\ (isLoading st = true <-> requests st <> [])
  /\ (abortControllerRef st = None <-> requests st = [])
  /\ (forall r, In r (requests st) ->
        abortControllerRef st = Some (r_id r) /\ r_aborted r = false)
  /\ (textarea_disabled st = false <-> requests st = []).
Proof.
  intro Hr. pose proof (reachable_Inv st Hr) as HI.
  destruct (inv_phase st HI) as [(Hreq & Hld & Href)|(r & Hreq & Hld & Href & Hab & _)];
    unfold textarea_disabled; rewrite Hreq, Hld, Href; simpl.
  - split; [lia|]. split; [split; congruence|]. split; [tauto|].
    split; [intros r []|tauto].
  - split; [lia|]. split; [split; congruence|]. split; [split; discriminate|].
    split; [|split; discriminate].
    intros r' [<-|[]]. auto.
Qed.

Lemma one_call_in_flight_witness :
  (length (requests waiting) <= 1)%nat
  /\ (isLoading waiting = true <-> requests waiting <> [])
  /\ (abortControllerRef waiting = None <-> requests waiting = [])
  /\ (forall r, In r (requests waiting) ->
        abortControllerRef waiting = Some (r_id r) /\ r_aborted r = false)
  /\ (textarea_disabled waiting = false <-> requests waiting = []).
Proof.
  apply (one_call_in_flight waiting).
  exists 0, [Change (str "hi"); Submit (str "0.a")]. reflexivity.
Defined.

Lemma cancelPreviousRequest_next_id (st : State) :
  next_id (cancelPreviousRequest st) = next_id st.
Proof. unfold cancelPreviousRequest. destruct (abortControllerRef st); reflexivity. Qed.

Lemma sendMessage_disabled (st : State) (rnd : JsString.t) :
  button_disabled st = true -> sendMessage (render st) rnd st = st.
Proof.
  unfold button_disabled, sendMessage, render. simpl.
  rewrite (orb_comm (isLoading st)). intros ->. reflexivity.
Qed.

(** X4. The Send button is disabled exactly when a submission would be
    ignored: the condition of line 160 holds if and only if [sendMessage]
    returns at its guard and leaves the state as it is. *)
Theorem button_matches_guard (st : State) (rnd : JsString.t) :
  button_disabled st = true <-> sendMessage (render st) rnd st = st.
Proof.
  split; [apply sendMessage_disabled|].
  intro H. destruct (button_disabled st) eqn:Hb; [reflexivity|exfalso].
  apply (f_equal next_id) in H. revert H.
  unfold button_disabled in Hb. apply orb_false_iff in Hb. destruct Hb as [Hld Hnb].
  unfold sendMessage, render, post. simpl. rewrite Hld, Hnb. simpl.
  rewrite cancelPreviousRequest_next_id. lia.
Qed.

Example button_enabled_when_typed :
  button_disabled typed = false
  /\ sendMessage (render typed) (str "0.a") typed = waiting.
Proof. split; reflexivity. Qed.

(* ================================================================= *)
(** ** What the history holds *)

Lemma trimStart_headOk (s : JsString.t) : headOk (trimStart s) = true.
Proof.
  induction s as [|c s IH]; simpl; [reflexivity|].
  destruct (isWhiteSpace c) eqn:E; [exact IH|]. simpl. rewrite E. reflexivity.
Qed.

Lemma trimStart_fixed (s : JsString.t) : headOk s = true -> trimStart s = s.
Proof.
  destruct s as [|c s]; simpl; [reflexivity|].
  destruct (isWhiteSpace c); [discriminate|reflexivity].
Qed.

Lemma trimStart_split (s : JsString.t) :
  exists ws, s = ws ++ trimStart s /\ blank ws = true.
Proof.
  induction s as [|c s (ws & IH & Hb)]; simpl.
  - exists []. auto.
  - destruct (isWhiteSpace c) eqn:E.
    + exists (c :: ws). simpl. rewrite E, Hb. split; [f_equal; exact IH|reflexivity].
    + exists []. auto.
Qed.

Lemma trimEnd_split (s : JsString.t) :
  exists ws, s = trimEnd s ++ ws /\ blank ws = true.
Proof.
  destruct (trimStart_split (rev s)) as (ws & H & Hb).
  exists (rev ws). split.
  - unfold trimEnd. rewrite <- rev_app_distr, <- H. symmetry. apply rev_involutive.
  - rewrite blank_rev. exact Hb.
Qed.

Lemma trimEnd_headOk (s : JsString.t) : headOk s = true -> headOk (trimEnd s) = true.
Proof.
  intro H. destruct (trimEnd_split s) as (ws & Hs & _).
  destruct (trimEnd s) as [|c u]; [reflexivity|].
  rewrite Hs in H. exact H.
Qed.

(** What [trim] returns has white space at neither end, so trimming it
    again changes nothing. *)
Lemma trim_ends (s : JsString.t) :
  headOk (trim s) = true /\ headOk (rev (trim s)) = true.
Proof.
  unfold trim. split.
  - apply trimEnd_headOk, trimStart_headOk.
  - unfold trimEnd. rewrite rev_involutive. apply trimStart_headOk.
Qed.

Lemma trim_fixed (s : JsString.t) :
  headOk s = true -> headOk (rev s) = true -> trim s = s.
Proof.
  intros H1 H2. unfold trim, trimEnd.
  rewrite (trimStart_fixed s H1), (trimStart_fixed (rev s) H2).
  apply rev_involutive.
Qed.

Lemma trim_idempotent (s : JsString.t) : trim (trim s) = trim s.
Proof. destruct (trim_ends s). apply trim_fixed; assumption. Qed.

Lemma sent_text_trim (s : JsString.t) (i : JsString.t) :
  not_ (trim s) = false -> sent_text (mkMessage (trim s) true i).
Proof.
  intros H _. simpl. split; [|split].
  - intro E. rewrite E in H. discriminate.
  - apply trim_idempotent.
  - rewrite <- not_trim_blank, trim_idempotent. exact H.
Qed.

Lemma setMessagesWithLimit_Forall (P : Message -> Prop) (l : list Message) :
  Forall P l -> Forall P (setMessagesWithLimit l).
Proof.
  intro H. destruct (setMessagesWithLimit_suffix l) as (d & Hd & _).
  rewrite Hd in H. apply Forall_app in H. tauto.
Qed.

(** The entry a macrotask appends is a bot message, or the user message
    made of the trimmed, non-blank input. *)
Lemma step_appends (e : Event) (st st' : State) :
  step e st = Some st' ->
  messages st' = messages st
  \/ exists m,
       messages st' = setMessagesWithLimit (messages st ++ [m])
       /\ (isUser m = false
           \/ exists i, m = mkMessage (trim (input st)) true i
                        /\ not_ (trim (input st)) = false).
Proof.
  unfold step. destruct (mounted st); simpl; [|discriminate].
  destruct e as [ms|value|rnd|n response rnd|n f rnd|n|].
  - destruct (0 <=? ms); [|discriminate]. intros [= <-]. left. reflexivity.
  - intros [= <-]. left. reflexivity.
  - intros [= <-]. rewrite drain_messages, sendMessage_messages. simpl.
    destruct (not_ (trim (input st))) eqn:Hb; simpl; [left; reflexivity|].
    destruct (isLoading st); [left; reflexivity|].
    right. eexists. split; [reflexivity|]. right. eauto.
  - destruct (find_request n st) as [r|]; [|discriminate]. intros [= <-].
    rewrite drain_messages, resume_messages.
    destruct (content_of response); right; eexists; split; try reflexivity;
      left; reflexivity.
  - destruct (find_request n st) as [r|]; [|discriminate]. intros [= <-].
    rewrite drain_messages, resume_messages, error_of_not_canceled.
    right. eexists. split; [reflexivity|]. left. reflexivity.
  - destruct (timer_due n st); [|discriminate]. intros [= <-].
    rewrite drain_messages. left. unfold onTimeout. simpl.
    destruct (abortControllerRef st); reflexivity.
  - intros [= <-]. left. simpl. rewrite drain_messages. unfold cleanup.
    destruct (abortControllerRef st); reflexivity.
Qed.

Lemma run_sent_text (es : list Event) (st st' : State) :
  Forall sent_text (messages st) ->
  run es st = Some st' ->
  Forall sent_text (messages st').
Proof.
  revert st. induction es as [|e es IH]; simpl; intros st H Hrun.
  - injection Hrun as <-. exact H.
  - destruct (step e st) as [st1|] eqn:Hstep; [|discriminate].
    apply (IH st1); [|exact Hrun].
    destruct (step_appends _ _ _ Hstep) as [E|(m & E & Hm)]; rewrite E; [exact H|].
    apply setMessagesWithLimit_Forall, Forall_app. split; [exact H|].
    constructor; [|constructor].
    destruct Hm as [Hm|(i & -> & Hnb)].
    + intro Hu. congruence.
    + apply sent_text_trim. exact Hnb.
Qed.

(** X5. Every user message of the history carries a text that was
    trimmed and is not blank: it is not empty, has white space at neither
    end, and is left alone by a further [trim]. *)
Theorem user_messages_trimmed (st : State) (m : Message) :
  reachable st ->
  In m (messages st) ->
  isUser m = true ->
  text m <> []
  /\ trim (text m) = text m
  /\ blank (text m) = false
  /\ headOk (text m) = true
  /\ headOk (rev (text m)) = true.
Proof.
  intros (t0 & es & Hrun) Hin Hu.
  assert (H : Forall sent_text (messages st)).
  { apply (run_sent_text es (initialState t0)); [constructor|exact Hrun]. }
  rewrite Forall_forall in H. destruct (H m Hin Hu) as (H1 & H2 & H3).
  split; [exact H1|]. split; [exact H2|]. split; [exact H3|].
  rewrite <- H2. apply trim_ends.
Qed.

Lemma user_messages_trimmed_witness :
  str "hi there" <> []
  /\ trim (str "hi there") = str "hi there"
  /\ blank (str "hi there") = false
  /\ headOk (str "hi there") = true
  /\ headOk (rev (str "hi there")) = true.
Proof.
  apply (user_messages_trimmed padded_replied
           (mkMessage (str "hi there") true (str "0a"))).
  - exists 0, [Change (str "  hi there 	"); Submit (str "0.a");
               Respond 0 sample_reply (str "0.b")].
    reflexivity.
  - left. reflexivity.
  - reflexivity.
Defined.

Lemma Request_eq_dec (a b : Request) : {a = b} + {a <> b}.
Proof. repeat decide equality. Qed.

(** A call comes into being only through a submission the button would
    admit. *)
Lemma step_new_request (e : Event) (r : Request) (st st' : State) :
  Inv st ->
  step e st = Some st' ->
  In r (requests st') ->
  ~ In r (requests st) ->
  exists rnd, e = Submit rnd /\ button_disabled st = false.
Proof.
  intros HI Hstep Hin Hnew.
  pose proof (step_mounted _ _ _ Hstep) as Hm.
  destruct e as [ms|value|rnd|n response rnd|n f rnd|n|].
  - unfold step in Hstep. rewrite Hm in Hstep. simpl in Hstep.
    destruct (0 <=? ms); [|discriminate]. injection Hstep as <-. contradiction.
  - unfold step in Hstep. rewrite Hm in Hstep. simpl in Hstep.
    injection Hstep as <-. contradiction.
  - exists rnd. split; [reflexivity|].
    destruct (button_disabled st) eqn:Hb; [|reflexivity]. exfalso.
    unfold step in Hstep. rewrite Hm in Hstep. simpl in Hstep.
    apply (sendMessage_disabled st rnd) in Hb. rewrite Hb in Hstep.
    rewrite drain_Inv in Hstep by exact HI. injection Hstep as <-. contradiction.
  - destruct (inv_phase st HI) as [Hidle|(r0 & Hbusy)].
    + rewrite step_Respond_idle in Hstep by assumption. discriminate.
    + rewrite (step_Respond_busy n response rnd r0) in Hstep by assumption.
      destruct (Nat.eqb (r_id r0) n); [|discriminate]. injection Hstep as <-.
      destruct (resume_idle r0 (Fulfilled response) rnd (set_requests [] st) eq_refl)
        as (E & _).
      rewrite E in Hin. destruct Hin.
  - destruct (inv_phase st HI) as [Hidle|(r0 & Hbusy)].
    + rewrite step_Fail_idle in Hstep by assumption. discriminate.
    + rewrite (step_Fail_busy n f rnd r0) in Hstep by assumption.
      destruct (Nat.eqb (r_id r0) n); [|discriminate]. injection Hstep as <-.
      destruct (resume_idle r0 (Rejected (error_of f)) rnd (set_requests [] st) eq_refl)
        as (E & _).
      rewrite E in Hin. destruct Hin.
  - destruct (inv_phase st HI) as [Hidle|(r0 & Hbusy)].
    + rewrite step_Timeout_idle in Hstep by assumption.
      destruct (timer_due n st); [|discriminate]. injection Hstep as <-.
      contradiction.
    + rewrite (step_Timeout_busy n r0) in Hstep by assumption.
      destruct (timer_due n st); [|discriminate]. injection Hstep as <-.
      destruct Hin.
  - destruct (inv_phase st HI) as [Hidle|(r0 & Hbusy)].
    + rewrite step_Unmount_idle in Hstep by assumption. injection Hstep as <-.
      contradiction.
    + rewrite (step_Unmount_busy r0) in Hstep by assumption. injection Hstep as <-.
      destruct Hin.
Qed.

Lemma step_awaits_reply (e : Event) (st st' : State) :
  Inv st -> awaits_reply st -> step e st = Some st' -> awaits_reply st'.
Proof.
  intros HI HP Hstep r Hin.
  destruct (in_dec Request_eq_dec r (requests st)) as [Hold|Hnew].
  - rewrite (eff_messages _ _ (step_Effect _ _ _ HI Hstep) r Hold Hin).
    apply HP. exact Hold.
  - destruct (step_new_request e r st st' HI Hstep Hin Hnew) as (rnd & -> & Hb).
    destruct (step_Submit_admitted rnd st st' HI Hb Hstep) as [Hst' (Hreq & _)].
    rewrite Hreq in Hin. destruct Hin as [<-|[]].
    split; [reflexivity|].
    destruct (setMessagesWithLimit_snoc (messages st) (userMessage_of rnd st))
      as (d & k & _ & Hk & _).
    exists k. rewrite Hst'. exact Hk.
Qed.

Lemma run_awaits_reply (es : list Event) (st st' : State) :
  Inv st -> awaits_reply st -> run es st = Some st' -> awaits_reply st'.
Proof.
  revert st. induction es as [|e es IH]; simpl; intros st HI HP Hrun.
  - injection Hrun as <-. exact HP.
  - destruct (step e st) as [st1|] eqn:Hstep; [|discriminate].
    apply (IH st1); [eapply step_Inv; eauto|eapply step_awaits_reply; eauto|exact Hrun].
Qed.

(** X6. The body posted for a call holds one turn only, of role "user",
    and its content is the text of the newest entry of the history: the
    trimmed, non-blank input of the submission.  Earlier entries of the
    history are never sent. *)
Theorem body_is_last_user_message (st : State) (r : Request) :
  reachable st ->
  In r (requests st) ->
  exists kept m,
    messages st = kept ++ [m]
    /\ isUser m = true
    /\ body_of (r_userMessage r)
       = PostBody.mk "gpt-3.5-turbo" [PostBody.mkTurn "user" (text m)]
    /\ text m <> []
    /\ trim (text m) = text m.
Proof.
  intros Hr Hin. pose proof Hr as (t0 & es & Hrun).
  assert (HP : awaits_reply st).
  { apply (run_awaits_reply es (initialState t0)); [apply Inv_initial| |exact Hrun].
    intros r0 []. }
  destruct (HP r Hin) as (Hu & kept & Hk).
  exists kept, (r_userMessage r). split; [exact Hk|]. split; [exact Hu|].
  split; [reflexivity|].
  assert (Hm : In (r_userMessage r) (messages st)).
  { rewrite Hk. apply in_or_app. right. left. reflexivity. }
  assert (H : Forall sent_text (messages st)).
  { apply (run_sent_text es (initialState t0)); [constructor|exact Hrun]. }
  rewrite Forall_forall in H. destruct (H _ Hm Hu) as (H1 & H2 & _). auto.
Qed.

Lemma body_is_last_user_message_witness :
  exists kept m,
    messages retyped = kept ++ [m]
    /\ isUser m = true
    /\ body_of (mkMessage (str "hi") true (str "0a"))
       = PostBody.mk "gpt-3.5-turbo" [PostBody.mkTurn "user" (text m)]
    /\ text m <> []
    /\ trim (text m) = text m.
Proof.
  apply (body_is_last_user_message retyped
           (mkRequest 0 (mkMessage (str "hi") true (str "0a")) false)).
  - exists 0, [Change (str "hi"); Submit (str "0.a"); Change (str "again")].
    reflexivity.
  - left. reflexivity.
Defined.



(* ================================================================= *)
(** ** Timers that outlive their call *)

(** X8. Only the arrival of the reply clears the timer of a call
    (line 102): after the reply no timer of that call is armed, while
    after a failure every timer is still armed, that of the failed call
    included.  And a timer that comes due aborts the call then in
    flight, whichever call armed it; a timer left by an earlier call
    does so before the 30 seconds of the later one are over. *)
Theorem timer_cleared_on_reply_only (st : State) (r : Request) :
  reachable st ->
  In r (requests st) ->
  (forall response rnd st',
      step (Respond (r_id r) response rnd) st = Some st' ->
      ~ In (r_id r) (map fst (timers st')))
  /\ (forall f rnd st',
        step (Fail (r_id r) f rnd) st = Some st' ->
        timers st' = timers st /\ In (r_id r) (map fst (timers st')))
  /\ (forall n,
        timer_due n st = true ->
        exists st',
          step (Timeout n) st = Some st'
          /\ find_request (r_id r) st' = None
          /\ requests st' = []
          /\ isLoading st' = false
          /\ messages st' = messages st).
Proof.
  intros Hr Hin.
  pose proof (reachable_Inv st Hr) as HI.
  pose proof (Inv_requests r st HI Hin) as Hb.
  pose proof (Inv_mounted r st HI Hin) as Hm.
  pose proof Hb as (_ & _ & _ & _ & Htm).
  split; [|split].
  - intros response rnd st' Hstep.
    rewrite (step_Respond_busy _ response rnd r) in Hstep by assumption.
    rewrite Nat.eqb_refl in Hstep. injection Hstep as <-.
    rewrite resume_timers. simpl. rewrite in_map_iff.
    intros ([n d] & Hn & Hf). apply filter_In in Hf. destruct Hf as [_ Hf].
    simpl in Hn, Hf. subst n. rewrite Nat.eqb_refl in Hf. discriminate.
  - intros f rnd st' Hstep.
    rewrite (step_Fail_busy _ f rnd r) in Hstep by assumption.
    rewrite Nat.eqb_refl in Hstep. injection Hstep as <-.
    rewrite resume_timers. simpl. auto.
  - intros n Hdue.
    rewrite (step_Timeout_busy n r) by assumption. rewrite Hdue.
    eexists. split; [reflexivity|]. repeat split.
Qed.

Lemma timer_cleared_on_reply_only_witness :
  (forall response rnd st',
      step (Respond 1 response rnd) second_call = Some st' ->
      ~ In 1%nat (map fst (timers st')))
  /\ (forall f rnd st',
        step (Fail 1 f rnd) second_call = Some st' ->
        timers st' = timers second_call /\ In 1%nat (map fst (timers st')))
  /\ (forall n,
        timer_due n second_call = true ->
        exists st',
          step (Timeout n) second_call = Some st'
          /\ find_request 1 st' = None
          /\ requests st' = []
          /\ isLoading st' = false
          /\ messages st' = messages second_call).
Proof.
  apply (timer_cleared_on_reply_only second_call
           (mkRequest 1 (mkMessage (str "again") true (str "mdkc")) false)).
  - exists 0, [Change (str "hi"); Submit (str "0.a");
               Fail 0 (BadStatus 500) (str "0.b");
               Tick 29000; Change (str "again"); Submit (str "0.c");
               Tick 1000].
    reflexivity.
  - left. reflexivity.
Defined.

(* ================================================================= *)
(** ** [cancelPreviousRequest] *)

Lemma cancelPreviousRequest_idle_witness :
  cancelPreviousRequest typed = typed.
Proof.
  apply (cancelPreviousRequest_idle typed).
  - exists 0, [Change (str "hi")]. reflexivity.
  - reflexivity.
Defined.

Lemma stale_closure_cancels_witness :
  let u := mkMessage (trim (str "again")) true (createMessageId (clock waiting) (str "0.b")) in
  let st' := drain (sendMessage (mkClosure (str "again") false) (str "0.b") waiting) in
  requests st' = [mkRequest (next_id waiting) u false]
  /\ messages st' = setMessagesWithLimit (messages waiting ++ [u])
  /\ isLoading st' = false
  /\ abortControllerRef st' = None.
Proof.
  apply (stale_closure_cancels waiting
           (mkRequest 0 (mkMessage (str "hi") true (str "0a")) false)
           (mkClosure (str "again") false) (str "0.b")).
  - repeat split. left. reflexivity.
  - reflexivity.
  - reflexivity.
Defined.

(* ================================================================= *)
(** ** The page *)

Lemma reachable_step (e : Event) (st st' : State) :
  reachable st -> step e st = Some st' -> reachable st'.
Proof.
  intros (t0 & es & Hrun) Hstep. exists t0, (es ++ [e]).
  revert Hrun. generalize (initialState t0). induction es as [|x es IH]; simpl.
  - intros s [= ->]. rewrite Hstep. reflexivity.
  - intros s. destruct (step x s); [apply IH|discriminate].
Qed.

(** A macrotask of the page is a macrotask of the component, or leaves
    the component alone. *)
Lemma ui_step_app (e : UiEvent) (ui ui' : Ui) :
  ui_step e ui = Some ui' ->
  app ui' = app ui \/ exists e', step e' (app ui) = Some (app ui').
Proof.
  unfold ui_step. destruct e as [value| |key shiftKey rnd|rnd|e'].
  - destruct (_ && _); [|discriminate]. intros [= <-]. left. reflexivity.
  - destruct (debounced ui) as [[value t]|]; [|discriminate].
    destruct (_ <=? _); [|discriminate]. intros [= <-]. simpl.
    destruct (mounted (app ui)) eqn:Hm; [|left; reflexivity].
    right. exists (Change value). unfold step. rewrite Hm. reflexivity.
  - destruct (_ && _); [|discriminate].
    destruct (handleKeyPress key shiftKey).
    + destruct (step (Submit rnd) (app ui)) as [st'|] eqn:E; [|discriminate].
      intros [= <-]. right. eauto.
    + intros [= <-]. left. reflexivity.
  - destruct (_ && _); [|discriminate].
    destruct (step (Submit rnd) (app ui)) as [st'|] eqn:E; [|discriminate].
    intros [= <-]. right. eauto.
  - destruct (from_env e'); [|discriminate].
    destruct (step e' (app ui)) as [st'|] eqn:E; [|discriminate].
    intros [= <-]. right. eauto.
Qed.

Lemma ui_reachable_app (ui : Ui) : ui_reachable ui -> reachable (app ui).
Proof.
  intros (t0 & es & Hrun).
  assert (H0 : reachable (app (initialUi t0))) by (exists t0, []; reflexivity).
  revert Hrun H0. generalize (initialUi t0).
  induction es as [|e es IH]; simpl; intros u Hrun Hu.
  - injection Hrun as <-. exact Hu.
  - destruct (ui_step e u) as [u1|] eqn:Hstep; [|discriminate].
    apply (IH u1 Hrun).
    destruct (ui_step_app _ _ _ Hstep) as [E|(e' & E)].
    + rewrite E. exact Hu.
    + eapply reachable_step; eauto.
Qed.



Lemma waiting_run (es : list UiEvent) (ui ui' : Ui) :
  forallb waiting_only es = true ->
  ui_run es ui = Some ui' ->
  debounced ui' = debounced ui
  /\ app ui' = set_clock (clock (app ui')) (app ui)
  /\ clock (app ui) <= clock (app ui').
Proof.
  revert ui. induction es as [|e es IH]; simpl; intros ui Ht Hrun.
  - injection Hrun as <-. split; [reflexivity|].
    split; [destruct (app ui); reflexivity|lia].
  - apply andb_true_iff in Ht. destruct Ht as [He Ht].
    destruct (ui_step e ui) as [u1|] eqn:Hstep; [|discriminate].
    destruct (IH u1 Ht Hrun) as (Ed & E & Hc).
    destruct e as [| | | |[ms| | | | | |]]; try discriminate.
    unfold ui_step in Hstep; simpl in Hstep.
    unfold step in Hstep. destruct (mounted (app ui)); [|discriminate].
    simpl in Hstep. destruct (Z.leb_spec 0 ms); [|discriminate].
    injection Hstep as <-. simpl in Ed, E, Hc. split; [exact Ed|]. split; [|lia].
    rewrite E. destruct (app ui); reflexivity.
Qed.



(** X12. What is typed less than 150 ms before Send is clicked is not
    sent: the message is the trimmed [input] of the last render, the
    click empties [input], and when the debounced function then runs it
    puts the late text into [input] while the call is still loading. *)
Theorem late_text_returns
    (ui ui1 ui2 ui3 : Ui) (ticks : list UiEvent) (v : JsString.t) (t : Z)
    (rnd : JsString.t) :
  ui_reachable ui ->
  debounced ui = Some (v, t) ->
  ui_step (Click rnd) ui = Some ui1 ->
  forallb waiting_only ticks = true ->
  ui_run ticks ui1 = Some ui2 ->
  ui_step Debounce ui2 = Some ui3 ->
  input (app ui1) = []
  /\ (exists kept,
        messages (app ui1)
        = kept ++ [mkMessage (trim (input (app ui))) true
                             (createMessageId (clock (app ui)) rnd)])
  /\ input (app ui3) = v
  /\ isLoading (app ui3) = true
  /\ messages (app ui3) = messages (app ui1).
Proof.
  intros Hr Hd Hclick Hticks Hrun Hdeb.
  apply ui_reachable_app, reachable_Inv in Hr.
  unfold ui_step in Hclick.
  destruct (mounted (app ui)) eqn:Hm; [|discriminate].
  destruct (button_disabled (app ui)) eqn:Hb; [discriminate|]. simpl in Hclick.
  destruct (step (Submit rnd) (app ui)) as [st1|] eqn:Hstep; [|discriminate].
  injection Hclick as <-. simpl in *.
  destruct (step_Submit_admitted rnd (app ui) st1 Hr Hb Hstep) as [-> _].
  destruct (waiting_run _ _ _ Hticks Hrun) as (Ed & E2 & _). simpl in Ed, E2.
  unfold ui_step in Hdeb. rewrite Ed, Hd in Hdeb.
  destruct (t + 150 <=? clock (app ui2)); [|discriminate].
  injection Hdeb as <-. rewrite E2. simpl. rewrite Hm. simpl.
  split; [reflexivity|]. split; [|auto].
  destruct (setMessagesWithLimit_snoc (messages (app ui)) (userMessage_of rnd (app ui)))
    as (d & k & _ & Hk & _).
  exists k. exact Hk.
Qed.

Lemma late_text_returns_witness :
  input (app late_sent) = []
  /\ (exists kept,
        messages (app late_sent)
        = kept ++ [mkMessage (trim (input (app late_typed))) true
                             (createMessageId (clock (app late_typed)) (str "0.a"))])
  /\ input (app late_returned) = str "hi!"
  /\ isLoading (app late_returned) = true
  /\ messages (app late_returned) = messages (app late_sent).
Proof.
  apply (late_text_returns late_typed late_sent late_waited late_returned
           [Env (Tick 130)] (str "hi!") 150 (str "0.a")).
  - exists 0, [OnChange (str "hi"); Env (Tick 150); Debounce;
               OnChange (str "hi!"); Env (Tick 20)].
    reflexivity.
  - reflexivity.
  - reflexivity.
  - reflexivity.
  - reflexivity.
  - reflexivity.
Defined.

Example late_text_sample :
  map text (messages (app late_returned)) = [str "hi"]
  /\ input (app late_returned) = str "hi!".
Proof. split; reflexivity. Qed.

(** X13. While a call is in flight the page takes neither text nor a
    submission: the textarea and the button are disabled, so no
    [onChange], key or click event occurs, and [sendMessage] is not
    called until the call has settled. *)
Theorem controls_closed_in_flight (ui : Ui) (r : Request) :
  ui_reachable ui ->
  In r (requests (app ui)) ->
  textarea_disabled (app ui) = true
  /\ button_disabled (app ui) = true
  /\ (forall v, ui_step (OnChange v) ui = None)
  /\ (forall key shiftKey rnd, ui_step (KeyDown key shiftKey rnd) ui = None)
  /\ (forall rnd, ui_step (Click rnd) ui = None).
Proof.
  intros Hr Hin. apply ui_reachable_app, reachable_Inv in Hr.
  destruct (Inv_requests r _ Hr Hin) as (_ & Hld & _).
  unfold ui_step, button_disabled, textarea_disabled. rewrite Hld. simpl.
  rewrite andb_false_r. repeat split.
Qed.

Lemma controls_closed_in_flight_witness :
  textarea_disabled (app late_sent) = true
  /\ button_disabled (app late_sent) = true
  /\ (forall v, ui_step (OnChange v) late_sent = None)
  /\ (forall key shiftKey rnd, ui_step (KeyDown key shiftKey rnd) late_sent = None)
  /\ (forall rnd, ui_step (Click rnd) late_sent = None).
Proof.
  apply (controls_closed_in_flight late_sent
           (mkRequest 0 (mkMessage (str "hi") true (str "4qa")) false)).
  - exists 0, [OnChange (str "hi"); Env (Tick 150); Debounce;
               OnChange (str "hi!"); Env (Tick 20); Click (str "0.a")].
    reflexivity.
  - left. reflexivity.
Defined.

(** X14. In the textarea only Enter without Shift submits.  Any other
    key, and Enter with Shift, leaves the page as it is; Enter does what
    a click on Send would do when the button is enabled, and nothing
    when the button is disabled by a blank input. *)
Theorem enter_submits_like_click
    (ui ui' : Ui) (key : string) (shiftKey : bool) (rnd : JsString.t) :
  ui_reachable ui ->
  ui_step (KeyDown key shiftKey rnd) ui = Some ui' ->
  (key <> "Enter"%string \/ shiftKey = true -> ui' = ui)
  /\ (key = "Enter"%string -> shiftKey = false ->
      button_disabled (app ui) = true -> ui' = ui)
  /\ (key = "Enter"%string -> shiftKey = false ->
      button_disabled (app ui) = false ->
      ui_step (Click rnd) ui = Some ui').
Proof.
  intros Hr Hstep. apply ui_reachable_app, reachable_Inv in Hr.
  unfold ui_step in Hstep |- *.
  destruct (mounted (app ui)) eqn:Hm; [|discriminate].
  destruct (negb (textarea_disabled (app ui))); [|discriminate].
  simpl in Hstep. unfold handleKeyPress in Hstep.
  split; [|split].
  - intros [Hk|Hs].
    + apply String.eqb_neq in Hk. rewrite Hk in Hstep. simpl in Hstep.
      congruence.
    + rewrite Hs, andb_false_r in Hstep. congruence.
  - intros -> -> Hb. simpl in Hstep.
    unfold step in Hstep. rewrite Hm in Hstep. simpl in Hstep.
    apply (sendMessage_disabled (app ui) rnd) in Hb.
    rewrite Hb, drain_Inv in Hstep by exact Hr.
    simpl in Hstep. injection Hstep as <-. destruct ui; reflexivity.
  - intros -> -> Hb. rewrite Hb. simpl in Hstep |- *. exact Hstep.
Qed.

Lemma enter_submits_like_click_witness :
  ("Enter"%string <> "Enter"%string \/ false = true -> late_sent = late_typed)
  /\ ("Enter"%string = "Enter"%string -> false = false ->
      button_disabled (app late_typed) = true -> late_sent = late_typed)
  /\ ("Enter"%string = "Enter"%string -> false = false ->
      button_disabled (app late_typed) = false ->
      ui_step (Click (str "0.a")) late_typed = Some late_sent).
Proof.
  apply (enter_submits_like_click late_typed late_sent "Enter" false (str "0.a")).
  - exists 0, [OnChange (str "hi"); Env (Tick 150); Debounce;
               OnChange (str "hi!"); Env (Tick 20)].
    reflexivity.
  - reflexivity.
Defined.

Example shift_enter_ignored :
  ui_step (KeyDown "Enter" true (str "0.a")) late_typed = Some late_typed.
Proof. reflexivity. Qed.

(* ================================================================= *)
(** ** The view *)

(** X15. What the page shows in a session: the chat box has one bubble
    per entry of the history, in order, and never more than 5000; the
    button reads "Sending..." exactly while a call is in flight, and then
    the textarea is disabled and the last bubble is the user bubble of
    that call, showing the text that was posted. *)
Theorem view_while_sending (st : State) :
  reachable st ->
  (length (chat_box (view st)) <= 5000)%nat
  /\ map Bubble.text (chat_box (view st)) = map text (messages st)
  /\ (button_label (view st) = "Sending..."%string <-> requests st <> [])
  /\ (button_label (view st) = "Send"%string <-> requests st = [])
  /\ forall r,
       In r (requests st) ->
       textarea_is_disabled (view st) = true
       /\ exists earlier,
            chat_box (view st)
            = earlier ++ [Bubble.mk (id (r_userMessage r)) "user-message"
                                    (text (r_userMessage r))].
Proof.
  intro Hr. pose proof (reachable_Inv st Hr) as HI.
  pose proof Hr as (t0 & es & Hrun).
  split; [|split; [|split; [|split]]].
  - simpl. rewrite length_map. pose proof (inv_cap st HI) as H.
    unfold MAX_MESSAGES in H. lia.
  - simpl. rewrite map_map. reflexivity.
  - simpl. destruct (inv_phase st HI) as [(Hreq & Hld & _)|(r & Hreq & Hld & _)];
      rewrite Hreq, Hld; split; congruence.
  - simpl. destruct (inv_phase st HI) as [(Hreq & Hld & _)|(r & Hreq & Hld & _)];
      rewrite Hreq, Hld; split; congruence.
  - intros r Hin.
    destruct (Inv_requests r st HI Hin) as (_ & Hld & _).
    split; [exact Hld|].
    assert (HP : awaits_reply st).
    { apply (run_awaits_reply es (initialState t0));
        [apply Inv_initial| |exact Hrun].
      intros r0 []. }
    destruct (HP r Hin) as (Hu & kept & Hk).
    exists (map MessageComponent kept).
    simpl. rewrite Hk, map_app. simpl. unfold MessageComponent at 2.
    rewrite Hu. reflexivity.
Qed.

Lemma view_while_sending_witness :
  (length (chat_box (view waiting)) <= 5000)%nat
  /\ map Bubble.text (chat_box (view waiting)) = map text (messages waiting)
  /\ (button_label (view waiting) = "Sending..."%string <-> requests waiting <> [])
  /\ (button_label (view waiting) = "Send"%string <-> requests waiting = [])
  /\ forall r,
       In r (requests waiting) ->
       textarea_is_disabled (view waiting) = true
       /\ exists earlier,
            chat_box (view waiting)
            = earlier ++ [Bubble.mk (id (r_userMessage r)) "user-message"
                                    (text (r_userMessage r))].
Proof.
  apply (view_while_sending waiting).
  exists 0, [Change (str "hi"); Submit (str "0.a")]. reflexivity.
Defined.

Example view_replied :
  view replied
  = mkView [Bubble.mk (str "0a") "user-message" (str "hi");
            Bubble.mk (str "xcb") "bot-message" (str "hello")]
           [] false true "Send".
Proof. reflexivity. Qed.

(* ================================================================= *)
(** ** Ids within a session *)

(** C9, as stated, fails: the reply to "hi" arrives in the millisecond of
    the submission and [Math.random] returns the same digits both times;
    the user message and the bot message of the history carry the same
    id. *)
Lemma same_reading_same_id :
  run [Change (str "hi"); Submit (str "0.a"); Respond 0 sample_reply (str "0.a")]
      (initialState 0)
    = Some same_reading
  /\ map id (messages same_reading) = [str "0a"; str "0a"]
  /\ map isUser (messages same_reading) = [true; false]
  /\ ~ NoDup (map id (messages same_reading)).
Proof.
  split; [reflexivity|]. split; [reflexivity|]. split; [reflexivity|].
  intro H. inversion H as [|x l Hnot _]. apply Hnot. left. reflexivity.
Qed.

(** A macrotask makes a message exactly when [creates] says so, and the
    id of that message is made from the clock of the macrotask. *)
Lemma step_creates (e : Event) (st st' : State) :
  step e st = Some st' ->
  match creates e st with
  | Some random36 =>
      exists m,
        id m = createMessageId (clock st) random36
        /\ messages st' = setMessagesWithLimit (messages st ++ [m])
  | None => messages st' = messages st
  end.
Proof.
  unfold step. destruct (mounted st); simpl; [|discriminate].
  destruct e as [ms|value|rnd|n response rnd|n f rnd|n|]; simpl.
  - destruct (0 <=? ms); [|discriminate]. intros [= <-]. reflexivity.
  - intros [= <-]. reflexivity.
  - intros [= <-]. rewrite drain_messages, sendMessage_messages. simpl.
    unfold button_disabled. rewrite (orb_comm (isLoading st)).
    destruct (not_ (trim (input st)) || isLoading st); [reflexivity|].
    eexists. split; [|reflexivity]. reflexivity.
  - destruct (find_request n st) as [r|]; [|discriminate]. intros [= <-].
    rewrite drain_messages, resume_messages.
    destruct (content_of response); eexists; (split; [|reflexivity]); reflexivity.
  - destruct (find_request n st) as [r|]; [|discriminate]. intros [= <-].
    rewrite drain_messages, resume_messages, error_of_not_canceled.
    eexists. split; [|reflexivity]. reflexivity.
  - destruct (timer_due n st); [|discriminate]. intros [= <-].
    rewrite drain_messages. unfold onTimeout. simpl.
    destruct (abortControllerRef st); reflexivity.
  - intros [= <-]. simpl. rewrite drain_messages. unfold cleanup.
    destruct (abortControllerRef st); reflexivity.
Qed.

(** The ids of the history after a run: those it had, then those of the
    messages made during the run, less what the cap evicted; and every
    message of the run was made at a clock reading of the run. *)
Lemma run_stamps (es : list Event) (st st' : State) :
  Inv st ->
  run es st = Some st' ->
  (exists dropped,
      map id (messages st) ++ map id_of_stamp (stamps es st)
      = dropped ++ map id (messages st'))
  /\ Forall (fun p => clock st <= fst p <= clock st') (stamps es st).
Proof.
  revert st. induction es as [|e es IH]; simpl; intros st HI Hrun.
  - injection Hrun as <-. split; [|constructor].
    exists []. apply app_nil_r.
  - destruct (step e st) as [st1|] eqn:Hstep; [|discriminate].
    pose proof (step_Inv _ _ _ HI Hstep) as HI1.
    pose proof (eff_clock _ _ (step_Effect _ _ _ HI Hstep)) as Hc1.
    pose proof (eff_clock _ _ (run_Effect _ _ _ HI1 Hrun)) as Hc2.
    destruct (IH st1 HI1 Hrun) as ((d' & Hd') & Hall).
    assert (Hall' : Forall (fun p => clock st <= fst p <= clock st') (stamps es st1)).
    { eapply Forall_impl; [|exact Hall]. simpl. intros p Hp. lia. }
    pose proof (step_creates _ _ _ Hstep) as Hcr.
    destruct (creates e st) as [rnd|].
    + destruct Hcr as (m & Hid & Hm). split.
      * destruct (setMessagesWithLimit_suffix (messages st ++ [m])) as (d & Hd & _).
        rewrite <- Hm in Hd.
        exists (map id d ++ d'). cbn [map].
        change (id_of_stamp (clock st, _)) with (createMessageId (clock st) rnd).
        rewrite <- Hid.
        change (id m :: map id_of_stamp (stamps es st1))
          with (map id [m] ++ map id_of_stamp (stamps es st1)).
        rewrite app_assoc, <- map_app, Hd, map_app, <- !app_assoc, Hd'.
        reflexivity.
      * constructor; [simpl; lia|exact Hall'].
    + rewrite <- Hcr. split; [exists d'; exact Hd'|exact Hall'].
Qed.

(** In the years of eight-digit readings a reading and the digits can be
    read off the id. *)
Lemma id_of_stamp_injective (p q : Z * JsString.t) :
  78364164096 <= fst p < 2821109907456 ->
  78364164096 <= fst q < 2821109907456 ->
  id_of_stamp p = id_of_stamp q ->
  p = q.
Proof.
  destruct p as [t1 s1], q as [t2 s2]. unfold id_of_stamp. simpl.
  intros H1 H2 Heq. apply app_eq_length in Heq.
  - destruct Heq as [Ht ->]. f_equal.
    rewrite <- (parse36_round_trip t1), <- (parse36_round_trip t2) by lia.
    rewrite Ht. reflexivity.
  - rewrite (toString36_length t1 7), (toString36_length t2 7);
      [reflexivity| |]; simpl; lia.
Qed.

(** C9, amended.  In a session whose clock readings have eight base-36
    digits (from June 1972 to May 2059), the ids of the history are those
    of the messages made in the session, and they are pairwise distinct
    provided no two messages were made in the same millisecond from the
    same random digits. *)
Theorem ids_unique_unless_same_reading (t0 : Z) (es : list Event) (st : State) :
  run es (initialState t0) = Some st ->
  78364164096 <= t0 ->
  clock st < 2821109907456 ->
  NoDup (stamps es (initialState t0)) ->
  NoDup (map id (messages st))
  /\ exists evicted,
       map id_of_stamp (stamps es (initialState t0))
       = evicted ++ map id (messages st).
Proof.
  intros Hrun Ht0 Hend Hnd.
  destruct (run_stamps es _ _ (Inv_initial t0) Hrun) as ((d & Hd) & Hall).
  simpl in Hd, Hall. split; [|exists d; exact Hd].
  apply (NoDup_app_remove_l d). rewrite <- Hd.
  apply NoDup_map_NoDup_ForallPairs; [|exact Hnd].
  intros p q Hp Hq. rewrite Forall_forall in Hall.
  pose proof (Hall p Hp). pose proof (Hall q Hq).
  apply id_of_stamp_injective; lia.
Qed.

Lemma ids_unique_unless_same_reading_witness :
  NoDup (map id (messages replied_2023))
  /\ exists evicted,
       map id_of_stamp (stamps session_2023 (initialState 1700000000000))
       = evicted ++ map id (messages replied_2023).
Proof.
  apply (ids_unique_unless_same_reading 1700000000000 session_2023 replied_2023).
  - reflexivity.
  - lia.
  - vm_compute. reflexivity.
  - vm_compute. repeat constructor; simpl; intuition discriminate.
Defined.

Example ids_2023 :
  map id (messages replied_2023) = [str "loyw3v28a"; str "loyw3voga"].
Proof. reflexivity. Qed.
